(** * The persisted work queue of defihelper-scanner

    A shallow embedding of [QueueService] and [Broker]
    (server/src/models/Queue/Service.ts).  Three revisions of that file are in
    the sources.  The top level of this development embeds the latest one
    (src/unnamed/part_001: tasks carry [retries] and [timeout], the claim
    increments [retries], [resetAndRestart] clears [error]).  Module
    [ServiceTs] embeds the functions of src/server/src/models/Queue/Service.ts
    that differ from it.  The earliest one (src/unnamed/part_000, with a single
    [handleOnly] list) is not embedded.

    The table of tasks is a list of rows in physical order; its queries do not
    fail.  Every [await] of [handle] is a point where other pollers and the
    running handler may touch the table; a [Schedule] says what they did there
    and what the clock read. *)

From Stdlib Require Import ZArith List String Bool Lia.
Import ListNotations.
Local Open Scope string_scope.
Local Open Scope Z_scope.

(** ** Entity: tasks *)

(** A JavaScript [Date], as milliseconds since the epoch. *)
Definition Date := Z.

(** Modelled from the spec: the enum [TaskStatus] of ./Entity, which is not in
    the sources; its members are the four statuses of the data model. *)
Module TaskStatus.
Inductive t : Type := Pending | Process | Done | Error.

Definition eqb (a b : t) : bool :=
  match a, b with
  | Pending, Pending | Process, Process | Done, Done | Error, Error => true
  | _, _ => false
  end.

End TaskStatus.

(** The type [Task] of ./Entity, with the fields [push] fills in.  [params]
    is an opaque payload, kept as its JSON text. *)
Module Task.
Record t : Type := mk {
  id : string;
  handler : string;
  params : string;
  startAt : Date;
  timeout : option Z;
  status : TaskStatus.t;
  info : string;
  error : string;
  retries : Z;
  createdAt : Date;
  updatedAt : Date
}.
End Task.

(** The rows of the queue table. *)
Definition Table := list Task.t.

(** ** The query builder, as far as [QueueService] uses it *)

Definition whereIn (column : Task.t -> string) (values : list string)
  (row : Task.t) : bool :=
  existsb (String.eqb (column row)) values.

Definition whereNotIn (column : Task.t -> string) (values : list string)
  (row : Task.t) : bool :=
  negb (whereIn column values row).

(** [orderBy(column, "asc")]: a stable insertion sort on the column. *)
Fixpoint insertAsc (column : Task.t -> Z) (row : Task.t) (rows : Table) : Table :=
  match rows with
  | [] => [row]
  | r :: rest =>
      if column row <=? column r then row :: rows
      else r :: insertAsc column row rest
  end.

Definition orderByAsc (column : Task.t -> Z) (rows : Table) : Table :=
  fold_right (insertAsc column) [] rows.

(** What [orderBy] promises: the head of a list is no later than every row
    after it, and so on down the list. *)
Definition headIsLeast (column : Task.t -> Z) (rows : Table) : Prop :=
  match rows with
  | [] => True
  | r :: rest => forall x, In x rest -> column r <= column x
  end.

Inductive Ascending (column : Task.t -> Z) : Table -> Prop :=
| Ascending_nil : Ascending column []
| Ascending_cons r rest :
    headIsLeast column (r :: rest) -> Ascending column rest ->
    Ascending column (r :: rest).

Definition limit (n : nat) (rows : Table) : Table := firstn n rows.

Definition first (rows : Table) : option Task.t := hd_error rows.

(** [update(values).where(cond)]: every matching row is rewritten; the query
    resolves to the number of rows it changed. *)
Definition updateWhere (cond : Task.t -> bool) (set : Task.t -> Task.t)
  (table : Table) : Table * Z :=
  (map (fun row => if cond row then set row else row) table,
   Z.of_nat (List.length (filter cond table))).

(** ** QueueService.handle: the select *)

Record HandleOptions : Type := mkHandleOptions {
  include : option (list string);
  exclude : option (list string)
}.

(** [handle(options = {})] *)
Definition noOptions : HandleOptions :=
  {| include := None; exclude := None |}.

(** [options.include && options.include.length > 0] *)
Definition given (names : option (list string)) : option (list string) :=
  match names with
  | Some (n :: rest) => Some (n :: rest)
  | _ => None
  end.

(** The callback handed to [where]: status, startAt, then the two filters. *)
Definition selectWhere (options : HandleOptions) (now : Date)
  (row : Task.t) : bool :=
  TaskStatus.eqb (Task.status row) TaskStatus.Pending
  && (Task.startAt row <=? now)
  && match given (include options) with
     | Some names => whereIn Task.handler names row
     | None => true
     end
  && match given (exclude options) with
     | Some names => whereNotIn Task.handler names row
     | None => true
     end.

(** [.where(...).orderBy("startAt", "asc").limit(1).first()] *)
Definition selectCurrent (options : HandleOptions) (now : Date)
  (table : Table) : option Task.t :=
  first (limit 1 (orderByAsc Task.startAt (filter (selectWhere options now) table))).

(** ** Entity: the execution context *)

(** A settled promise of a handler: the context it resolved to, or the text
    describing the value it threw. *)
Inductive Settled (A : Type) : Type :=
| Resolved (value : A)
| Rejected (reason : string).
Arguments Resolved {A} value.
Arguments Rejected {A} reason.

(** Modelled from the spec: the class [Process] of ./Entity, which is not in
    the sources.  It wraps the working copy of one task; its failure operation
    yields that task with status [Error], [error] set to a description of the
    failure and [updatedAt] bumped.  It is pure: nothing is written. *)
Module Process.
Record t : Type := new { task : Task.t }.

Definition error (process : t) (reason : string) (now : Date) : t :=
  let w := task process in
  new {| Task.id := Task.id w; Task.handler := Task.handler w;
         Task.params := Task.params w; Task.startAt := Task.startAt w;
         Task.timeout := Task.timeout w; Task.status := TaskStatus.Error;
         Task.info := Task.info w; Task.error := reason;
         Task.retries := Task.retries w; Task.createdAt := Task.createdAt w;
         Task.updatedAt := now |}.
End Process.

(** A handler of ../../queue: [(process: Process) => Promise<Process>]. *)
Definition HandlerFn := Process.t -> Settled Process.t.

(** What [Handlers[name].default] throws when [Handlers[name]] is undefined. *)
Definition undefinedHandler : string :=
  "TypeError: Cannot read properties of undefined (reading 'default')".

(** ** What one call of [handle] does, and when *)

(** The queries, log lines and handler calls of [QueueService], in order. *)
Inductive Effect : Type :=
| Select (whereIn whereNotIn : option (list string)) (now : Date)
| Claim (id : string) (rows : Z)
| LogInfo (message : string)
| Call (handler : string) (process : Process.t)
| Update (id : string) (values : Task.t).

(** A query that changed the table. *)
Definition isWrite (e : Effect) : bool :=
  match e with
  | Claim _ rows => negb (rows =? 0)
  | Update _ _ => true
  | Select _ _ _ | LogInfo _ | Call _ _ => false
  end.

Definition isCall (e : Effect) : bool :=
  match e with Call _ _ => true | _ => false end.

(** The world around one call of [handle]: the clock where the code reads it,
    and what the other pollers (and the running handler) did to the table at
    the two [await]s that separate its queries. *)
Record Schedule : Type := mkSchedule {
  selectAt : Date;
  raced : Table -> Table;
  meanwhile : Table -> Table;
  failedAt : Date
}.

(** Nobody else touches the table. *)
Definition alone (now : Date) : Schedule :=
  {| selectAt := now; raced := fun t => t; meanwhile := fun t => t;
     failedAt := now |}.

Record Handled : Type := mkHandled {
  returned : bool;
  table : Table;
  effects : list Effect
}.

(** ** QueueService (src/unnamed/part_001) *)

(** The select as the builder sends it: [whereIn] and [whereNotIn] are part of
    the query only for a list that is there and not empty. *)
Definition selectQuery (options : HandleOptions) (now : Date) : Effect :=
  Select (given (include options)) (given (exclude options)) now.

Definition whereId (id : string) (row : Task.t) : bool :=
  String.eqb (Task.id row) id.

(** [.where({ id: current.id, status: TaskStatus.Pending })] *)
Definition claimWhere (id : string) (row : Task.t) : bool :=
  whereId id row && TaskStatus.eqb (Task.status row) TaskStatus.Pending.

(** [.update({ status: TaskStatus.Process }).increment('retries')] *)
Definition claimSet (row : Task.t) : Task.t :=
  {| Task.id := Task.id row; Task.handler := Task.handler row;
     Task.params := Task.params row; Task.startAt := Task.startAt row;
     Task.timeout := Task.timeout row; Task.status := TaskStatus.Process;
     Task.info := Task.info row; Task.error := Task.error row;
     Task.retries := Task.retries row + 1;
     Task.createdAt := Task.createdAt row;
     Task.updatedAt := Task.updatedAt row |}.

Definition claim (id : string) (table : Table) : Table * Z :=
  updateWhere (claimWhere id) claimSet table.

(** [this.table().update(values).where("id", id)] *)
Definition updateById (id : string) (values : Task.t) (table : Table) : Table :=
  fst (updateWhere (whereId id) (fun _ => values) table).

Definition resetAndRestart (startNow updateNow : Date) (task : Task.t)
  (table : Table) : Task.t * Table :=
  let updated :=
    {| Task.id := Task.id task; Task.handler := Task.handler task;
       Task.params := Task.params task; Task.startAt := startNow;
       Task.timeout := Task.timeout task; Task.status := TaskStatus.Pending;
       Task.info := Task.info task; Task.error := "";
       Task.retries := Task.retries task;
       Task.createdAt := Task.createdAt task;
       Task.updatedAt := updateNow |} in
  (updated, updateById (Task.id updated) updated table).

(** [uuid] is the identifier [uuid()] drew, [createdNow] and [updatedNow] the
    two readings of the clock. *)
Definition push (uuid : string) (createdNow updatedNow : Date)
  (handler params : string) (timeout : option Z) (startAt : Date)
  (table : Table) : Task.t * Table :=
  let task :=
    {| Task.id := uuid; Task.handler := handler; Task.params := params;
       Task.startAt := startAt; Task.timeout := timeout;
       Task.status := TaskStatus.Pending; Task.info := ""; Task.error := "";
       Task.retries := 0; Task.createdAt := createdNow;
       Task.updatedAt := updatedNow |} in
  (task, (table ++ [task])%list).

Section Dispatch.

(** The module object [Handlers] of ../../queue: the handler registered under
    each name, [None] where the object has no such key. *)
Variable Handlers : string -> option HandlerFn.

(** Modelled from the spec: [hasHandler] of ./Entity, which is not in the
    sources: whether the name exists in the handler registry. *)
Definition hasHandler (name : string) : bool :=
  match Handlers name with Some _ => true | None => false end.

(** The body of [try { ... } catch (e) { ... }] up to the query that persists
    the outcome: the values to write, and the handler call if there was one. *)
Definition settle (current : Task.t) (failedAt : Date)
  : Task.t * list Effect :=
  let process := Process.new current in
  match Handlers (Task.handler current) with
  | None => (Process.task (Process.error process undefinedHandler failedAt), [])
  | Some run =>
      match run process with
      | Resolved result =>
          (Process.task result, [Call (Task.handler current) process])
      | Rejected e =>
          (Process.task (Process.error process e failedAt),
           [Call (Task.handler current) process])
      end
  end.

Definition handle (options : HandleOptions) (world : Schedule)
  (table0 : Table) : Handled :=
  let select := selectQuery options (selectAt world) in
  match selectCurrent options (selectAt world) table0 with
  | None => {| returned := false; table := table0; effects := [select] |}
  | Some current =>
      let (table1, lock) := claim (Task.id current) (raced world table0) in
      if lock =? 0 then
        {| returned := false; table := table1;
           effects := [select; Claim (Task.id current) lock] |}
      else
        let (values, called) := settle current (failedAt world) in
        {| returned := true;
           table := updateById (Task.id current) values (meanwhile world table1);
           effects :=
             ([select; Claim (Task.id current) lock;
               LogInfo ("Handle task: " ++ Task.id current)]
              ++ called ++ [Update (Task.id current) values])%list |}
  end.

End Dispatch.

(** ** QueueService (src/server/src/models/Queue/Service.ts)

    The revision before [retries]: the claim only sets the status, nothing is
    logged, and [resetAndRestart] sets [status] and [startAt] alone.  A row of
    that revision has no [retries] column; here the column is carried along
    untouched. *)
Module ServiceTs.

(** [.update({ status: TaskStatus.Process })] *)
Definition claimSet (row : Task.t) : Task.t :=
  {| Task.id := Task.id row; Task.handler := Task.handler row;
     Task.params := Task.params row; Task.startAt := Task.startAt row;
     Task.timeout := Task.timeout row; Task.status := TaskStatus.Process;
     Task.info := Task.info row; Task.error := Task.error row;
     Task.retries := Task.retries row;
     Task.createdAt := Task.createdAt row;
     Task.updatedAt := Task.updatedAt row |}.

Definition claim (id : string) (table : Table) : Table * Z :=
  updateWhere (claimWhere id) claimSet table.

Definition resetAndRestart (startNow : Date) (task : Task.t)
  (table : Table) : Task.t * Table :=
  let updated :=
    {| Task.id := Task.id task; Task.handler := Task.handler task;
       Task.params := Task.params task; Task.startAt := startNow;
       Task.timeout := Task.timeout task; Task.status := TaskStatus.Pending;
       Task.info := Task.info task; Task.error := Task.error task;
       Task.retries := Task.retries task;
       Task.createdAt := Task.createdAt task;
       Task.updatedAt := Task.updatedAt task |} in
  (updated, updateById (Task.id updated) updated table).

Definition handle (Handlers : string -> option HandlerFn)
  (options : HandleOptions) (world : Schedule) (table0 : Table) : Handled :=
  let select := selectQuery options (selectAt world) in
  match selectCurrent options (selectAt world) table0 with
  | None => {| returned := false; table := table0; effects := [select] |}
  | Some current =>
      let (table1, lock) := claim (Task.id current) (raced world table0) in
      if lock =? 0 then
        {| returned := false; table := table1;
           effects := [select; Claim (Task.id current) lock] |}
      else
        let (values, called) := settle Handlers current (failedAt world) in
        {| returned := true;
           table := updateById (Task.id current) values (meanwhile world table1);
           effects :=
             ([select; Claim (Task.id current) lock]
              ++ called ++ [Update (Task.id current) values])%list |}
  end.

End ServiceTs.

(** ** Broker *)

(** What a statement completes with: a value, or a thrown [Error]. *)
Inductive Completion (A : Type) : Type :=
| Normal (value : A)
| Throw (message : string).
Arguments Normal {A} value.
Arguments Throw {A} message.

(** The value found under [options.handler] at run time.  Its declared type is
    [HandleOptions]; [createBroker] asks [typeof] whether it is a string. *)
Inductive HandlerOption : Type :=
| Absent
| Name (name : string)
| Lists (lists : HandleOptions).

(** An optional property of an object literal: the key is missing, or it is
    there with the value [undefined], or it is there with a value.  The
    spread [{ ...options }] copies a key that is there, whatever its value. *)
Inductive Property (A : Type) : Type :=
| Missing
| Undefined
| Value (value : A).
Arguments Missing {A}.
Arguments Undefined {A}.
Arguments Value {A} value.

(** [Partial<BrokerOptions>] *)
Module BrokerOptions.
Record t : Type := mk {
  interval : Property Z;
  handler : HandlerOption
}.
End BrokerOptions.

Module Broker.
Record t : Type := mk {
  isStarted : bool;
  options : BrokerOptions.t
}.

(** [this.options = { interval: 1000, ...options }], [isStarted = false]: the
    default stands only when [options] has no [interval] key; a key that is
    there overrides it, also with [undefined]. *)
Definition new (options : BrokerOptions.t) : t :=
  {| isStarted := false;
     options :=
       {| BrokerOptions.interval :=
            match BrokerOptions.interval options with
            | Missing => Value 1000
            | Undefined => Undefined
            | Value ms => Value ms
            end;
          BrokerOptions.handler := BrokerOptions.handler options |} |}.

(** [this.options.interval], as [setTimeout] receives it: a number, or
    [None] for [undefined]. *)
Definition interval (b : t) : option Z :=
  match BrokerOptions.interval (options b) with
  | Value ms => Some ms
  | Missing | Undefined => None
  end.

(** [this.options.handler] as the parameter [options: HandleOptions = {}] of
    [QueueService.handle] reads it: [undefined] takes the default, and a
    string has neither an [include] nor an [exclude] property. *)
Definition handleOptions (b : t) : HandleOptions :=
  match BrokerOptions.handler (options b) with
  | Lists lists => lists
  | Absent | Name _ => noOptions
  end.

(** Where one run of [handle()], with the calls of itself it ends in, is
    suspended: at [await this.service.handle(...)], at the [await] of the
    [setTimeout] promise, or nowhere, having taken [return]. *)
Inductive Loop : Type := InHandle | Asleep | Over.

(** What the loop asks of the outside. *)
Inductive Signal : Type :=
| CallHandle (options : HandleOptions)
| SetTimeout (ms : option Z).

(** [handle()] from its first line to its first [await]. *)
Definition handle (b : t) : Loop * list Signal :=
  if negb (isStarted b) then (Over, [])
  else (InHandle, [CallHandle (handleOptions b)]).

(** [handle()] resumed with [res], up to its next [await]. *)
Definition resumed (b : t) (res : bool) : Loop * list Signal :=
  if negb res then (Asleep, [SetTimeout (interval b)])
  else handle b.

(** [handle()] resumed by the timer: [this.handle()]. *)
Definition woken (b : t) : Loop * list Signal := handle b.

Definition setStarted (flag : bool) (b : t) : t :=
  {| isStarted := flag; options := options b |}.

Definition start (b : t) : t * (Loop * list Signal) :=
  let b' := setStarted true b in (b', handle b').

Definition stop (b : t) : t := setStarted false b.

(** What may happen to a broker and one of its loops. *)
Inductive Input : Type :=
| StartCalled
| StopCalled
| HandleSettled (res : bool)
| TimerFired.

(** One step of a loop.  [start()] called again begins a loop of its own and
    leaves this one where it is; a promise settles only for the loop that
    awaits it. *)
Definition step (b : t) (l : Loop) (i : Input)
  : option (t * Loop * list Signal) :=
  match i, l with
  | StartCalled, _ => Some (fst (start b), l, [])
  | StopCalled, _ => Some (stop b, l, [])
  | HandleSettled res, InHandle =>
      let (l', out) := resumed b res in Some (b, l', out)
  | TimerFired, Asleep =>
      let (l', out) := woken b in Some (b, l', out)
  | _, _ => None
  end.

(** The inputs a loop takes and the signals it sends, in order. *)
Inductive Item : Type :=
| In (i : Input)
| Out (s : Signal).

Fixpoint run (b : t) (l : Loop) (inputs : list Input)
  : option (t * Loop * list Item) :=
  match inputs with
  | [] => Some (b, l, [])
  | i :: rest =>
      match step b l i with
      | None => None
      | Some (b', l', out) =>
          match run b' l' rest with
          | None => None
          | Some (b'', l'', log) =>
              Some (b'', l'', In i :: map Out out ++ log)%list
          end
      end
  end.

(** Reading a log with [inFlight] telling whether a call of
    [QueueService.handle] is awaited: a call is sent only when none is
    awaited, a result arrives only for an awaited call, and the timer is set
    and fires only when none is. *)
Fixpoint oneAtATime (inFlight : bool) (log : list Item) : bool :=
  match log with
  | [] => true
  | Out (CallHandle _) :: rest => negb inFlight && oneAtATime true rest
  | In (HandleSettled _) :: rest => inFlight && oneAtATime false rest
  | Out (SetTimeout _) :: rest | In TimerFired :: rest =>
      negb inFlight && oneAtATime false rest
  | In StartCalled :: rest | In StopCalled :: rest => oneAtATime inFlight rest
  end.

(** Whether the loop awaits a call of [QueueService.handle]. *)
Definition inFlight (l : Loop) : bool :=
  match l with InHandle => true | Asleep | Over => false end.

Definition isStart (i : Input) : bool :=
  match i with StartCalled => true | _ => false end.

(** The calls of [QueueService.handle] a log holds. *)
Definition isCallHandle (x : Item) : bool :=
  match x with Out (CallHandle _) => true | _ => false end.

(** The inputs that resume a suspended loop. *)
Definition isResumption (i : Input) : bool :=
  match i with HandleSettled _ | TimerFired => true | _ => false end.

(** How many resumptions a loop can still take once [isStarted] is false. *)
Definition resumptionsLeft (l : Loop) : nat :=
  match l with InHandle => 2 | Asleep => 1 | Over => 0 end.

End Broker.

Section CreateBroker.

Variable Handlers : string -> option HandlerFn.

Definition quote : string := String (Ascii.ascii_of_nat 34) "".

(** [QueueService.createBroker] *)
Definition createBroker (options : BrokerOptions.t) : Completion Broker.t :=
  match BrokerOptions.handler options with
  | Name name =>
      if negb (hasHandler Handlers name)
      then Throw ("Invalid queue handler " ++ quote ++ name ++ quote)
      else Normal (Broker.new options)
  | Absent | Lists _ => Normal (Broker.new options)
  end.

End CreateBroker.

(** ** Sample data *)

Module Sample.

(** A registry with one handler, which fails as callCallBack does when its
    callback row is missing. *)
Definition notFound : string := "Error: CallBack not found".

Definition registry (name : string) : option HandlerFn :=
  if String.eqb name "callCallBack"
  then Some (fun _ => Rejected notFound)
  else None.

Definition pending (id handler : string) (startAt : Date) : Task.t :=
  {| Task.id := id; Task.handler := handler; Task.params := "{}";
     Task.startAt := startAt; Task.timeout := None;
     Task.status := TaskStatus.Pending; Task.info := ""; Task.error := "";
     Task.retries := 0; Task.createdAt := startAt;
     Task.updatedAt := startAt |}.

Definition taskA : Task.t := pending "a" "callCallBack" 10.
Definition taskB : Task.t := pending "b" "callCallBack" 20.
Definition taskC : Task.t := pending "c" "sendMail" 5.

(** A task that ended in [Error] after two claims. *)
Definition failed : Task.t :=
  {| Task.id := "f"; Task.handler := "callCallBack"; Task.params := "{}";
     Task.startAt := 10; Task.timeout := Some 500;
     Task.status := TaskStatus.Error; Task.info := "half done";
     Task.error := notFound; Task.retries := 2; Task.createdAt := 1;
     Task.updatedAt := 12 |}.

(** Another poller claims every pending row with the given id first. *)
Definition stolen (id : string) : Table -> Table :=
  fun t => fst (claim id t).

Definition lostRace (id : string) (now : Date) : Schedule :=
  {| selectAt := now; raced := stolen id; meanwhile := fun t => t;
     failedAt := now |}.




(** A registry whose handlers all succeed, handing back the task they were
    given as [Done]. *)
Definition doneOf (task : Task.t) : Task.t :=
  {| Task.id := Task.id task; Task.handler := Task.handler task;
     Task.params := Task.params task; Task.startAt := Task.startAt task;
     Task.timeout := Task.timeout task; Task.status := TaskStatus.Done;
     Task.info := "ok"; Task.error := Task.error task;
     Task.retries := Task.retries task; Task.createdAt := Task.createdAt task;
     Task.updatedAt := 16 |}.

Definition finish : HandlerFn :=
  fun process => Resolved (Process.new (doneOf (Process.task process))).

Definition finishing (name : string) : option HandlerFn := Some finish.

(** Broker options whose [include] list has a typo, and options without. *)
Definition typoOptions : BrokerOptions.t :=
  {| BrokerOptions.interval := Missing;
     BrokerOptions.handler :=
       Lists {| include := Some ["nope"]; exclude := None |} |}.

Definition goodOptions : BrokerOptions.t :=
  {| BrokerOptions.interval := Value 250;
     BrokerOptions.handler :=
       Lists {| include := Some ["callCallBack"]; exclude := None |} |}.

End Sample.

(** ** queue/callback/callCallBack.ts *)

Module CallCallBack.

(** [arr.slice(from, to)] for [from <= to]. *)
Definition slice {A : Type} (arr : list A) (from to : nat) : list A :=
  firstn (to - from) (skipn from arr).

(** [Math.ceil(length / size)] for [size > 0].  An array is shorter than
    2^32, and below that the quotient of two doubles is never rounded to a
    whole number it is not, so the ceiling is the one of the exact quotient. *)
Definition ceilDiv (n size : nat) : nat := ((n + size - 1) / size)%nat.

(** [chunk(arr, size)] for a size that is a natural number.  With [size = 0]
    the length handed to [Array.from] is [NaN] for an empty array, which
    counts as 0, and [Infinity] otherwise, which [Array.from] refuses. *)
Definition chunk {A : Type} (arr : list A) (size : nat)
  : Completion (list (list A)) :=
  match size, arr with
  | O, [] => Normal []
  | O, _ :: _ => Throw "RangeError: Invalid array length"
  | S _, _ =>
      Normal (map (fun i => slice arr (i * size) (i * size + size))
                (seq 0 (ceilDiv (List.length arr) size)))
  end.

(** [interface Params] *)
Module Params.
Record t : Type := mk { id : string; events : list string }.
End Params.

(** A row of the event table, as [select("id", "from", "transactionHash")]
    returns it. *)
Module Event.
Record t : Type := mk { id : string; from : string; transactionHash : string }.
End Event.

(** The columns of a callback row and of an event listener row the handler
    reads. *)
Module CallBack.
Record t : Type := mk { eventListener : string; callbackUrl : string }.
End CallBack.

Module EventListener.
Record t : Type := mk { contract : string; name : string }.
End EventListener.

(** [axios.post(url, { eventName, events })] *)
Module Post.
Record t : Type := mk {
  url : string;
  eventName : string;
  events : list Event.t
}.
End Post.

(** What the handler reaches through [container] and [axios], and the parts
    of ./Entity it uses.  A table read by id is the row
    [where("id", id).first()] finds, if any; [contractTable] tells whether
    such a row is there.  [settled] is what [Promise.all] of the posts settles
    with: [None] when every post resolved, the description of the first
    rejection otherwise.  [done] is [process.done()]. *)
Record Services : Type := mkServices {
  paramsOf : string -> Params.t;
  callBackTable : string -> option CallBack.t;
  contractEventListenerTable : string -> option EventListener.t;
  contractTable : string -> bool;
  eventTable : list Event.t;
  settled : list Post.t -> option string;
  done : Process.t -> Process.t;
  failedAt : Date
}.

Definition notFound (what id : string) : string :=
  "Error: " ++ what ++ " " ++ quote ++ id ++ quote ++ " not found".

(** [eventTable().select(...).whereIn("id", eventIds)] *)
Definition selectEvents (s : Services) (eventIds : list string) : list Event.t :=
  filter (fun row => existsb (String.eqb (Event.id row)) eventIds) (eventTable s).

(** The default export: what the promise settles with, and the posts sent. *)
Definition handler (s : Services) (process : Process.t)
  : Settled Process.t * list Post.t :=
  let params := paramsOf s (Task.params (Process.task process)) in
  match callBackTable s (Params.id params) with
  | None => (Rejected (notFound "CallBack" (Params.id params)), [])
  | Some callBack =>
      match contractEventListenerTable s (CallBack.eventListener callBack) with
      | None =>
          (Rejected (notFound "Event listener" (CallBack.eventListener callBack)),
           [])
      | Some eventListener =>
          if negb (contractTable s (EventListener.contract eventListener))
          then (Rejected (notFound "Contract" (EventListener.contract eventListener)),
                [])
          else
            match chunk (selectEvents s (Params.events params)) 100 with
            | Throw e => (Rejected e, [])
            | Normal events =>
                let posts :=
                  map (fun eventList =>
                         {| Post.url := CallBack.callbackUrl callBack;
                            Post.eventName := EventListener.name eventListener;
                            Post.events := eventList |}) events in
                match events with
                | [] => (Resolved (done s process), [])
                | _ :: _ =>
                    match settled s posts with
                    | None => (Resolved (done s process), posts)
                    | Some e =>
                        (Resolved (Process.error process e (failedAt s)), posts)
                    end
                end
            end
      end
  end.

(** The handler as the registry holds it. *)
Definition default (s : Services) : HandlerFn :=
  fun process => fst (handler s process).

(** Whether the three rows the handler looks up are there. *)
Definition rowsFound (s : Services) (process : Process.t) : bool :=
  match callBackTable s (Params.id (paramsOf s (Task.params (Process.task process)))) with
  | None => false
  | Some callBack =>
      match contractEventListenerTable s (CallBack.eventListener callBack) with
      | None => false
      | Some eventListener =>
          contractTable s (EventListener.contract eventListener)
      end
  end.

End CallCallBack.

(** Sample rows for callCallBack: a callback "cb" on the listener "l" of the
    contract "c", and three events, of which a task lists two. *)
Module SampleCallBack.

Definition event (id : string) : CallCallBack.Event.t :=
  {| CallCallBack.Event.id := id; CallCallBack.Event.from := "0xfrom";
     CallCallBack.Event.transactionHash := "0xhash" |}.

Definition services (settled : option string) : CallCallBack.Services :=
  {| CallCallBack.paramsOf := fun _ =>
       {| CallCallBack.Params.id := "cb";
          CallCallBack.Params.events := ["e1"; "e3"] |};
     CallCallBack.callBackTable := fun id =>
       if String.eqb id "cb"
       then Some {| CallCallBack.CallBack.eventListener := "l";
                    CallCallBack.CallBack.callbackUrl := "https://example.org/hook" |}
       else None;
     CallCallBack.contractEventListenerTable := fun id =>
       if String.eqb id "l"
       then Some {| CallCallBack.EventListener.contract := "c";
                    CallCallBack.EventListener.name := "Transfer" |}
       else None;
     CallCallBack.contractTable := fun id => String.eqb id "c";
     CallCallBack.eventTable := [event "e1"; event "e2"; event "e3"];
     CallCallBack.settled := fun _ => settled;
     CallCallBack.done := fun process =>
       Process.new (Sample.doneOf (Process.task process));
     CallCallBack.failedAt := 16 |}.

Definition registry (settled : option string) (name : string)
  : option HandlerFn :=
  if String.eqb name "callCallBack"
  then Some (CallCallBack.default (services settled))
  else None.

End SampleCallBack.

(** * Facts about the query builder *)

Lemma TaskStatus_eqb_eq (a b : TaskStatus.t) :
  TaskStatus.eqb a b = true <-> a = b.
Proof. destruct a, b; simpl; split; intro H; congruence. Qed.

Section OrderBy.

Variable column : Task.t -> Z.

Lemma insertAsc_In (row x : Task.t) (rows : Table) :
  In x (insertAsc column row rows) <-> x = row \/ In x rows.
Proof.
  induction rows as [|r rest IH]; simpl.
  - intuition auto.
  - destruct (column row <=? column r); simpl; [intuition auto|].
    rewrite IH. intuition auto.
Qed.

Lemma orderByAsc_In (x : Task.t) (rows : Table) :
  In x (orderByAsc column rows) <-> In x rows.
Proof.
  induction rows as [|r rest IH]; simpl; [tauto|].
  rewrite insertAsc_In, IH. intuition auto.
Qed.

Lemma insertAsc_Ascending (row : Task.t) (rows : Table) :
  Ascending column rows -> Ascending column (insertAsc column row rows).
Proof.
  induction 1 as [|r rest Hhd Hrest IH]; simpl.
  - constructor; [simpl; tauto | constructor].
  - destruct (column row <=? column r) eqn:E.
    + apply Z.leb_le in E. constructor; [|now constructor].
      simpl. intros x [<-|Hx]; [exact E|].
      specialize (Hhd x Hx). lia.
    + apply Z.leb_gt in E. constructor; [|exact IH].
      simpl. intros x Hx. apply insertAsc_In in Hx as [->|Hx]; [lia|].
      now apply Hhd.
Qed.

Lemma orderByAsc_Ascending (rows : Table) :
  Ascending column (orderByAsc column rows).
Proof.
  induction rows as [|r rest IH]; simpl; [constructor|].
  now apply insertAsc_Ascending.
Qed.

Lemma orderByAsc_nil (rows : Table) : orderByAsc column rows = [] -> rows = [].
Proof.
  destruct rows as [|r rest]; [reflexivity|]. intro H.
  assert (In r (orderByAsc column (r :: rest))) as Hin
    by (apply orderByAsc_In; now left).
  rewrite H in Hin. destruct Hin.
Qed.

(** [orderBy(...).limit(1).first()] is a row of the list, and the least. *)
Lemma first_orderByAsc (rows : Table) (r : Task.t) :
  first (limit 1 (orderByAsc column rows)) = Some r ->
  In r rows /\ forall x, In x rows -> column r <= column x.
Proof.
  pose proof (orderByAsc_Ascending rows) as Hasc.
  pose proof (fun x => orderByAsc_In x rows) as Hin.
  destruct (orderByAsc column rows) as [|h sorted]; simpl; [discriminate|].
  intros [= ->]. split; [apply Hin; now left|].
  intros x Hx. apply Hin in Hx as [<-|Hx]; [lia|].
  inversion Hasc as [|? ? Hhd _]; subst. now apply Hhd.
Qed.

Lemma first_orderByAsc_None (rows : Table) :
  first (limit 1 (orderByAsc column rows)) = None <-> rows = [].
Proof.
  split; [|now intros ->].
  destruct (orderByAsc column rows) as [|h sorted] eqn:E; simpl;
    [intros _; now apply orderByAsc_nil | discriminate].
Qed.

End OrderBy.

Lemma whereIn_In (column : Task.t -> string) (values : list string) (row : Task.t) :
  whereIn column values row = true <-> In (column row) values.
Proof.
  unfold whereIn. rewrite existsb_exists. split.
  - intros (v & Hv & E). apply String.eqb_eq in E. now subst.
  - intro H. exists (column row). split; [exact H | apply String.eqb_refl].
Qed.

Lemma given_Some (names : option (list string)) (l : list string) :
  given names = Some l -> names = Some l /\ l <> [].
Proof.
  destruct names as [[|n rest]|]; simpl; try discriminate.
  intros [= <-]. split; [reflexivity | discriminate].
Qed.

Lemma given_nonempty (l : list string) : l <> [] -> given (Some l) = Some l.
Proof. destruct l; [congruence | reflexivity]. Qed.

(** What the [where] callback of the select accepts. *)
Lemma selectWhere_true (options : HandleOptions) (now : Date) (row : Task.t) :
  selectWhere options now row = true <->
  Task.status row = TaskStatus.Pending
  /\ Task.startAt row <= now
  /\ (forall names, include options = Some names -> names <> [] ->
        In (Task.handler row) names)
  /\ (forall names, exclude options = Some names -> names <> [] ->
        ~ In (Task.handler row) names).
Proof.
  unfold selectWhere. rewrite !andb_true_iff, TaskStatus_eqb_eq, Z.leb_le.
  assert (forall A B A' B' : Prop, (A <-> A') -> (B <-> B') -> (A /\ B <-> A' /\ B'))
    as Hand by tauto.
  rewrite <- !and_assoc. apply Hand; [apply Hand; [tauto|]|].
  - destruct (include options) as [[|n rest]|]; cbn [given].
    + split; [intros _ names [= <-] H; congruence | reflexivity].
    + rewrite whereIn_In. split; [intros H names [= <-] _; exact H|].
      intros H. apply H; [reflexivity | discriminate].
    + split; [discriminate | reflexivity].
  - destruct (exclude options) as [[|n rest]|]; cbn [given].
    + split; [intros _ names [= <-] H; congruence | reflexivity].
    + unfold whereNotIn. rewrite negb_true_iff, <- not_true_iff_false, whereIn_In.
      split; [intros H names [= <-] _; exact H|].
      intros H. apply H; [reflexivity | discriminate].
    + split; [discriminate | reflexivity].
Qed.

Lemma selectCurrent_None (options : HandleOptions) (now : Date) (table : Table) :
  selectCurrent options now table = None <->
  forall row, In row table -> selectWhere options now row = false.
Proof.
  unfold selectCurrent. rewrite first_orderByAsc_None. split.
  - intros H row Hin. destruct (selectWhere options now row) eqn:E; [|reflexivity].
    assert (In row (filter (selectWhere options now) table)) as Hf
      by (apply filter_In; now split).
    rewrite H in Hf. destruct Hf.
  - intro H. destruct (filter (selectWhere options now) table) as [|r rest] eqn:E;
      [reflexivity|].
    assert (In r (filter (selectWhere options now) table)) as Hf
      by (rewrite E; now left).
    apply filter_In in Hf as [Hin Ht]. rewrite (H r Hin) in Ht. discriminate.
Qed.

(** * Facts about updates *)

Lemma filter_nil_iff (cond : Task.t -> bool) (rows : Table) :
  filter cond rows = [] <-> forall row, In row rows -> cond row = false.
Proof.
  induction rows as [|r rest IH]; simpl; [tauto|].
  destruct (cond r) eqn:E.
  - split; [discriminate|]. intro H. specialize (H r (or_introl eq_refl)). congruence.
  - rewrite IH. split; [intros H row [<-|Hin]; auto | auto].
Qed.

Lemma updateWhere_unmatched (cond : Task.t -> bool) (set : Task.t -> Task.t)
  (rows : Table) :
  (forall row, In row rows -> cond row = false) ->
  fst (updateWhere cond set rows) = rows.
Proof.
  unfold updateWhere; simpl. induction rows as [|r rest IH]; [reflexivity|].
  intro H. simpl. rewrite (H r (or_introl eq_refl)), IH; [reflexivity|].
  intros row Hin. apply H. now right.
Qed.

(** An update that reports no row changed none. *)
Lemma updateWhere_zero (cond : Task.t -> bool) (set : Task.t -> Task.t)
  (rows rows' : Table) :
  updateWhere cond set rows = (rows', 0) -> rows' = rows.
Proof.
  intro H. pose proof (f_equal fst H) as Hf. pose proof (f_equal snd H) as Hs.
  simpl in Hf, Hs. subst rows'.
  apply (updateWhere_unmatched cond set), filter_nil_iff.
  destruct (filter cond rows); [reflexivity | simpl in Hs; lia].
Qed.

(** An update that reports one row changed that row and no other. *)
Lemma updateWhere_one (cond : Task.t -> bool) (set : Task.t -> Task.t)
  (rows rows' : Table) :
  updateWhere cond set rows = (rows', 1) ->
  exists before row after,
    rows = (before ++ row :: after)%list
    /\ rows' = (before ++ set row :: after)%list
    /\ cond row = true
    /\ (forall r, In r before \/ In r after -> cond r = false).
Proof.
  revert rows'. induction rows as [|r rest IH]; intros rows' H.
  - discriminate.
  - pose proof (f_equal fst H) as Hf. pose proof (f_equal snd H) as Hs.
    simpl in Hf, Hs. destruct (cond r) eqn:E.
    + exists [], r, rest. simpl.
      assert (filter cond rest = []) as Hnil
        by (destruct (filter cond rest); [reflexivity | simpl in Hs; lia]).
      assert (fst (updateWhere cond set rest) = rest) as Hsame
        by (apply updateWhere_unmatched, filter_nil_iff, Hnil).
      simpl in Hsame. rewrite Hsame in Hf. subst rows'.
      split; [reflexivity|]. split; [reflexivity|]. split; [exact E|].
      intros x [[]|Hin]. now apply (proj1 (filter_nil_iff cond rest)).
    + destruct (IH (fst (updateWhere cond set rest))) as
        (before & row & after & -> & Hrows' & Hc & Hrest).
      { unfold updateWhere; simpl. now rewrite Hs. }
      exists (r :: before), row, after. simpl in Hrows' |- *.
      rewrite <- Hf, Hrows'. repeat split; auto.
      intros x [[<-|Hin]|Hin]; auto.
Qed.

Lemma updateById_map (id : string) (values : Task.t) (rows : Table) :
  updateById id values rows
  = map (fun row => if String.eqb (Task.id row) id then values else row) rows.
Proof. reflexivity. Qed.

(** After [update(values).where("id", id)], a row that had the id holds the
    values, and a row with another id is as it was. *)
Lemma updateById_In (id : string) (values : Task.t) (rows : Table) (row : Task.t) :
  In row rows ->
  (Task.id row = id -> In values (updateById id values rows))
  /\ (Task.id row <> id -> In row (updateById id values rows)).
Proof.
  intro Hin. rewrite updateById_map. split; intro H.
  - apply in_map_iff. exists row. split; [|exact Hin].
    apply String.eqb_eq in H. now rewrite H.
  - apply in_map_iff. exists row. split; [|exact Hin].
    apply String.eqb_neq in H. now rewrite H.
Qed.

Lemma claim_rows_ServiceTs (id : string) (rows : Table) :
  snd (ServiceTs.claim id rows) = snd (claim id rows).
Proof. reflexivity. Qed.

(** * QueueService.handle: the select *)

(** C5, as the code has it.  The row [handle] selects is a row of the table
    that is [Pending], whose [startAt] is not after the clock, whose handler
    is in [include] when that list is given and not empty, is not in
    [exclude] when that list is given and not empty, and whose [startAt] is the
    earliest among the rows that satisfy these conditions.  In particular, of
    two such rows A and B with [startAt A < startAt B], some row is selected,
    it is not B, and it starts no later than A. *)
Theorem selectCurrent_earliest (options : HandleOptions) (now : Date) (rows : Table) :
  (forall current, selectCurrent options now rows = Some current ->
     In current rows
     /\ Task.status current = TaskStatus.Pending
     /\ Task.startAt current <= now
     /\ (forall names, include options = Some names -> names <> [] ->
           In (Task.handler current) names)
     /\ (forall names, exclude options = Some names -> names <> [] ->
           ~ In (Task.handler current) names)
     /\ (forall other, In other rows -> selectWhere options now other = true ->
           Task.startAt current <= Task.startAt other))
  /\ (forall A B, In A rows -> In B rows ->
        selectWhere options now A = true -> selectWhere options now B = true ->
        Task.startAt A < Task.startAt B ->
        exists current, selectCurrent options now rows = Some current
          /\ current <> B /\ Task.startAt current <= Task.startAt A).
Proof.
  assert (forall current, selectCurrent options now rows = Some current ->
            In current rows /\ selectWhere options now current = true
            /\ forall other, In other rows -> selectWhere options now other = true ->
                 Task.startAt current <= Task.startAt other) as Hsel.
  { intros current H. apply first_orderByAsc in H as [Hin Hleast].
    apply filter_In in Hin as [Hin Hok]. repeat split; auto.
    intros other Ho Hoo. apply Hleast, filter_In. now split. }
  split.
  - intros current H. destruct (Hsel current H) as (Hin & Hok & Hleast).
    apply selectWhere_true in Hok as (Hst & Hat & Hinc & Hexc).
    repeat split; auto.
  - intros A B HA HB HAok HBok Hlt.
    destruct (selectCurrent options now rows) as [current|] eqn:E.
    + destruct (Hsel current eq_refl) as (_ & _ & Hleast).
      specialize (Hleast A HA HAok). exists current. repeat split; [|exact Hleast].
      intros ->. lia.
    + rewrite selectCurrent_None in E. rewrite (E A HA) in HAok. discriminate.
Qed.

Lemma selectCurrent_earliest_witness :
  selectCurrent noOptions 30 [Sample.taskB; Sample.taskA] = Some Sample.taskA
  /\ exists current,
       selectCurrent noOptions 30 [Sample.taskB; Sample.taskA] = Some current
       /\ current <> Sample.taskB
       /\ Task.startAt current <= Task.startAt Sample.taskA.
Proof.
  split; [reflexivity|].
  apply (proj2 (selectCurrent_earliest noOptions 30 [Sample.taskB; Sample.taskA])
           Sample.taskA Sample.taskB); simpl; auto; reflexivity.
Defined.

(** C5, as the claim states it, fails: with [include: []] given, the select
    returns a row although its handler is in no way a member of the list. *)
Lemma selectCurrent_include_given_counterexample :
  ~ (forall options now rows current names,
       selectCurrent options now rows = Some current ->
       include options = Some names ->
       In (Task.handler current) names).
Proof.
  intro H.
  apply (H {| include := Some []; exclude := None |} 30 [Sample.taskA]
           Sample.taskA []); reflexivity.
Qed.

Section HandleFacts.

Variable Handlers : string -> option HandlerFn.

(** [handle] once the select found [current], over the table as the other
    pollers left it. *)
Lemma handle_selected (options : HandleOptions) (world : Schedule)
  (t0 : Table) (current : Task.t) :
  selectCurrent options (selectAt world) t0 = Some current ->
  handle Handlers options world t0 =
    let (t1, lock) := claim (Task.id current) (raced world t0) in
    if lock =? 0 then
      {| returned := false; table := t1;
         effects := [selectQuery options (selectAt world);
                     Claim (Task.id current) lock] |}
    else
      let (values, called) := settle Handlers current (failedAt world) in
      {| returned := true;
         table := updateById (Task.id current) values (meanwhile world t1);
         effects :=
           ([selectQuery options (selectAt world);
             Claim (Task.id current) lock;
             LogInfo ("Handle task: " ++ Task.id current)]
            ++ called ++ [Update (Task.id current) values])%list |}.
Proof. intro H. unfold handle. now rewrite H. Qed.

Lemma ServiceTs_handle_selected (options : HandleOptions) (world : Schedule)
  (t0 : Table) (current : Task.t) :
  selectCurrent options (selectAt world) t0 = Some current ->
  ServiceTs.handle Handlers options world t0 =
    let (t1, lock) := ServiceTs.claim (Task.id current) (raced world t0) in
    if lock =? 0 then
      {| returned := false; table := t1;
         effects := [selectQuery options (selectAt world);
                     Claim (Task.id current) lock] |}
    else
      let (values, called) := settle Handlers current (failedAt world) in
      {| returned := true;
         table := updateById (Task.id current) values (meanwhile world t1);
         effects :=
           ([selectQuery options (selectAt world);
             Claim (Task.id current) lock]
            ++ called ++ [Update (Task.id current) values])%list |}.
Proof. intro H. unfold ServiceTs.handle. now rewrite H. Qed.

(** C6.  When no row of the table passes the select (the table is empty, or
    every pending row starts in the future, or the filters leave none),
    [handle] returns [false] having sent the select and nothing else: no
    write, and the table is as it was.  Both revisions. *)
Theorem handle_idle (options : HandleOptions) (world : Schedule) (t0 : Table) :
  (forall row, In row t0 -> selectWhere options (selectAt world) row = false) ->
  let idle :=
    {| returned := false; table := t0;
       effects := [selectQuery options (selectAt world)] |} in
  handle Handlers options world t0 = idle
  /\ ServiceTs.handle Handlers options world t0 = idle
  /\ filter isWrite (effects idle) = []
  /\ filter isCall (effects idle) = [].
Proof.
  intros H idle. apply selectCurrent_None in H.
  unfold handle, ServiceTs.handle. rewrite H. repeat split.
Qed.

(** C1.  When the select found [current] and the claim
    ([id = current.id and status = Pending]) reports no row, another poller
    having taken the task in between, [handle] returns [false]; after the
    claim it sends nothing: no handler call, no write, and the table is as the
    other pollers left it.  Both revisions. *)
Theorem handle_claim_lost (options : HandleOptions) (world : Schedule)
  (t0 : Table) (current : Task.t) :
  selectCurrent options (selectAt world) t0 = Some current ->
  snd (claim (Task.id current) (raced world t0)) = 0 ->
  let lost :=
    {| returned := false; table := raced world t0;
       effects := [selectQuery options (selectAt world);
                   Claim (Task.id current) 0] |} in
  handle Handlers options world t0 = lost
  /\ ServiceTs.handle Handlers options world t0 = lost
  /\ filter isWrite (effects lost) = []
  /\ filter isCall (effects lost) = [].
Proof.
  intros Hsel Hlock lost.
  rewrite (handle_selected _ _ _ _ Hsel), (ServiceTs_handle_selected _ _ _ _ Hsel).
  pose proof (claim_rows_ServiceTs (Task.id current) (raced world t0)) as Hsame.
  destruct (claim (Task.id current) (raced world t0)) as [t1 lock] eqn:E.
  destruct (ServiceTs.claim (Task.id current) (raced world t0)) as [t1' lock'] eqn:E'.
  simpl in Hlock, Hsame. subst lock lock'.
  apply updateWhere_zero in E, E'. subst t1 t1'. simpl. repeat split.
Qed.

(** C10.  An [include] or [exclude] list that is there but empty filters
    nothing: [handle] does with it exactly what it does without it.  Both
    revisions. *)
Theorem handle_empty_list_is_absent (inc exc : option (list string))
  (world : Schedule) (t0 : Table) :
  handle Handlers {| include := Some []; exclude := exc |} world t0
  = handle Handlers {| include := None; exclude := exc |} world t0
  /\ handle Handlers {| include := inc; exclude := Some [] |} world t0
     = handle Handlers {| include := inc; exclude := None |} world t0
  /\ ServiceTs.handle Handlers {| include := Some []; exclude := exc |} world t0
     = ServiceTs.handle Handlers {| include := None; exclude := exc |} world t0
  /\ ServiceTs.handle Handlers {| include := inc; exclude := Some [] |} world t0
     = ServiceTs.handle Handlers {| include := inc; exclude := None |} world t0.
Proof. repeat split. Qed.

End HandleFacts.

Lemma handle_idle_witness :
  handle Sample.registry noOptions (alone 15) [Sample.taskB]
  = {| returned := false; table := [Sample.taskB];
       effects := [Select None None 15] |}.
Proof.
  apply (handle_idle Sample.registry noOptions (alone 15) [Sample.taskB]).
  intros row [<-|[]]. reflexivity.
Defined.

Lemma handle_claim_lost_witness :
  handle Sample.registry noOptions (Sample.lostRace "a" 15) [Sample.taskA]
  = {| returned := false;
       table := [claimSet Sample.taskA];
       effects := [Select None None 15; Claim "a" 0] |}.
Proof.
  apply (handle_claim_lost Sample.registry noOptions (Sample.lostRace "a" 15)
           [Sample.taskA] Sample.taskA); reflexivity.
Defined.

(** * QueueService.handle: the claim and the outcome *)

Section ClaimFacts.

Variable Handlers : string -> option HandlerFn.

Lemma handle_claimed (options : HandleOptions) (world : Schedule)
  (t0 : Table) (current : Task.t) :
  selectCurrent options (selectAt world) t0 = Some current ->
  snd (claim (Task.id current) (raced world t0)) <> 0 ->
  let lock := snd (claim (Task.id current) (raced world t0)) in
  let values := fst (settle Handlers current (failedAt world)) in
  let called := snd (settle Handlers current (failedAt world)) in
  handle Handlers options world t0 =
    {| returned := true;
       table := updateById (Task.id current) values
                  (meanwhile world (fst (claim (Task.id current) (raced world t0))));
       effects :=
         ([selectQuery options (selectAt world); Claim (Task.id current) lock;
           LogInfo ("Handle task: " ++ Task.id current)]
          ++ called ++ [Update (Task.id current) values])%list |}
  /\ ServiceTs.handle Handlers options world t0 =
    {| returned := true;
       table := updateById (Task.id current) values
                  (meanwhile world
                     (fst (ServiceTs.claim (Task.id current) (raced world t0))));
       effects :=
         ([selectQuery options (selectAt world); Claim (Task.id current) lock]
          ++ called ++ [Update (Task.id current) values])%list |}.
Proof.
  intros Hsel Hlock lock values called. subst lock values called.
  rewrite (handle_selected _ _ _ _ _ Hsel), (ServiceTs_handle_selected _ _ _ _ _ Hsel).
  pose proof (claim_rows_ServiceTs (Task.id current) (raced world t0)) as Hsame.
  destruct (claim (Task.id current) (raced world t0)) as [t1 lock].
  destruct (ServiceTs.claim (Task.id current) (raced world t0)) as [t1' lock'].
  simpl in Hlock, Hsame |- *. subst lock'.
  apply Z.eqb_neq in Hlock. rewrite Hlock.
  destruct (settle Handlers current (failedAt world)) as [values called].
  split; reflexivity.
Qed.

(** The claim update alone.  When [handle] selected [current] and its claim
    changed one row, that row had the id of [current] and was [Pending]; the
    update left it in [Process] with [retries] one higher and touched no other
    row.  What the table holds when [handle] is done is another matter: the
    outcome write comes after it. *)
Theorem claim_increments_retries (options : HandleOptions) (world : Schedule)
  (t0 t1 : Table) (current : Task.t) :
  selectCurrent options (selectAt world) t0 = Some current ->
  claim (Task.id current) (raced world t0) = (t1, 1) ->
  (exists before row after,
     raced world t0 = (before ++ row :: after)%list
     /\ t1 = (before ++ claimSet row :: after)%list
     /\ Task.id row = Task.id current
     /\ Task.status row = TaskStatus.Pending
     /\ Task.status (claimSet row) = TaskStatus.Process
     /\ Task.retries (claimSet row) = Task.retries row + 1
     /\ (forall r, In r before \/ In r after ->
           claimWhere (Task.id current) r = false))
  /\ returned (handle Handlers options world t0) = true
  /\ In (Claim (Task.id current) 1) (effects (handle Handlers options world t0)).
Proof.
  intros Hsel Hclaim. split.
  - destruct (updateWhere_one _ _ _ _ Hclaim)
      as (before & row & after & Hrows & Ht1 & Hc & Hrest).
    exists before, row, after.
    unfold claimWhere, whereId in Hc. apply andb_true_iff in Hc as [Hid Hst].
    apply String.eqb_eq in Hid. apply TaskStatus_eqb_eq in Hst.
    repeat split; auto.
  - assert (snd (claim (Task.id current) (raced world t0)) <> 0) as Hlock
      by (rewrite Hclaim; discriminate).
    destruct (handle_claimed options world t0 current Hsel Hlock) as [-> _].
    rewrite Hclaim. simpl. auto.
Qed.

(** C7.  When the claim of [current] changed a row, [handle] returns [true]
    whatever the handler does.  When the registered handler throws [e], the
    last query writes, under the id of [current], the task the context's
    failure operation yields: status [Error], [error] the description of [e],
    [updatedAt] the clock at the failure; every row that has the id then holds
    it.  Both revisions. *)
Theorem handle_failure_persisted (options : HandleOptions) (world : Schedule)
  (t0 : Table) (current : Task.t) :
  selectCurrent options (selectAt world) t0 = Some current ->
  snd (claim (Task.id current) (raced world t0)) <> 0 ->
  let h := handle Handlers options world t0 in
  let h' := ServiceTs.handle Handlers options world t0 in
  returned h = true /\ returned h' = true
  /\ forall run e,
       Handlers (Task.handler current) = Some run ->
       run (Process.new current) = Rejected e ->
       let failed :=
         Process.task (Process.error (Process.new current) e (failedAt world)) in
       Task.status failed = TaskStatus.Error
       /\ Task.error failed = e
       /\ Task.updatedAt failed = failedAt world
       /\ Task.id failed = Task.id current
       /\ table h = updateById (Task.id current) failed
                      (meanwhile world (fst (claim (Task.id current) (raced world t0))))
       /\ table h' = updateById (Task.id current) failed
                       (meanwhile world
                          (fst (ServiceTs.claim (Task.id current) (raced world t0))))
       /\ last (effects h) (LogInfo "") = Update (Task.id current) failed
       /\ last (effects h') (LogInfo "") = Update (Task.id current) failed
       /\ (forall row,
             In row (meanwhile world (fst (claim (Task.id current) (raced world t0)))) ->
             Task.id row = Task.id current -> In failed (table h)).
Proof.
  intros Hsel Hlock h h'.
  destruct (handle_claimed options world t0 current Hsel Hlock) as [Hh Hh'].
  subst h h'. rewrite Hh, Hh'. cbn [returned table effects].
  split; [reflexivity|]. split; [reflexivity|].
  intros run e Hrun He. unfold settle. rewrite Hrun, He.
  cbn [fst snd]. repeat (split; [reflexivity|]).
  intros row Hin Hid. now apply (updateById_In _ _ _ row Hin).
Qed.

(** C8.  When the claim of [current] changed a row and no handler is
    registered under its handler name, the lookup throws inside [try]: no
    handler is called, the last query writes the task with status [Error] and
    the description of that [TypeError] under the id of [current], and [handle]
    returns [true].  Both revisions. *)
Theorem handle_unregistered_handler (options : HandleOptions) (world : Schedule)
  (t0 : Table) (current : Task.t) :
  selectCurrent options (selectAt world) t0 = Some current ->
  snd (claim (Task.id current) (raced world t0)) <> 0 ->
  Handlers (Task.handler current) = None ->
  let h := handle Handlers options world t0 in
  let h' := ServiceTs.handle Handlers options world t0 in
  let failed :=
    Process.task
      (Process.error (Process.new current) undefinedHandler (failedAt world)) in
  returned h = true /\ returned h' = true
  /\ Task.status failed = TaskStatus.Error
  /\ Task.error failed = undefinedHandler
  /\ Task.id failed = Task.id current
  /\ table h = updateById (Task.id current) failed
                 (meanwhile world (fst (claim (Task.id current) (raced world t0))))
  /\ table h' = updateById (Task.id current) failed
                  (meanwhile world
                     (fst (ServiceTs.claim (Task.id current) (raced world t0))))
  /\ filter isCall (effects h) = [] /\ filter isCall (effects h') = []
  /\ last (effects h) (LogInfo "") = Update (Task.id current) failed
  /\ last (effects h') (LogInfo "") = Update (Task.id current) failed
  /\ (forall row,
        In row (meanwhile world (fst (claim (Task.id current) (raced world t0)))) ->
        Task.id row = Task.id current -> In failed (table h)).
Proof.
  intros Hsel Hlock Hnone h h' failed.
  destruct (handle_claimed options world t0 current Hsel Hlock) as [Hh Hh'].
  subst h h'. rewrite Hh, Hh'. unfold settle. rewrite Hnone.
  subst failed. cbn [returned table effects fst snd].
  repeat (split; [reflexivity|]).
  intros row Hin Hid. now apply (updateById_In _ _ _ row Hin).
Qed.

End ClaimFacts.

Lemma claim_increments_retries_witness :
  returned (handle Sample.registry noOptions (alone 15) [Sample.taskB; Sample.taskA])
  = true
  /\ fst (claim "a" [Sample.taskB; Sample.taskA])
     = [Sample.taskB; claimSet Sample.taskA]
  /\ Task.retries (claimSet Sample.taskA) = Task.retries Sample.taskA + 1.
Proof.
  destruct (claim_increments_retries Sample.registry noOptions (alone 15)
              [Sample.taskB; Sample.taskA] [Sample.taskB; claimSet Sample.taskA]
              Sample.taskA eq_refl eq_refl) as (_ & Hret & _).
  split; [exact Hret|]. split; reflexivity.
Defined.

Lemma handle_failure_persisted_witness :
  returned (handle Sample.registry noOptions (alone 15)
              [Sample.taskB; Sample.taskA]) = true
  /\ table (handle Sample.registry noOptions (alone 15)
              [Sample.taskB; Sample.taskA])
     = [Sample.taskB;
        Process.task (Process.error (Process.new Sample.taskA) Sample.notFound 15)]
  /\ Task.status
       (Process.task (Process.error (Process.new Sample.taskA) Sample.notFound 15))
     = TaskStatus.Error.
Proof.
  destruct (handle_failure_persisted Sample.registry noOptions (alone 15)
              [Sample.taskB; Sample.taskA] Sample.taskA eq_refl)
    as (Hret & _ & Hthrow).
  { vm_compute. discriminate. }
  destruct (Hthrow (fun _ => Rejected Sample.notFound) Sample.notFound
              eq_refl eq_refl) as (Hst & _ & _ & _ & Htab & _).
  split; [exact Hret|]. split; [|exact Hst].
  rewrite Htab. reflexivity.
Defined.

Lemma handle_unregistered_handler_witness :
  returned (handle Sample.registry noOptions (alone 15) [Sample.taskC]) = true
  /\ table (handle Sample.registry noOptions (alone 15) [Sample.taskC])
     = [Process.task (Process.error (Process.new Sample.taskC) undefinedHandler 15)].
Proof.
  split; [|reflexivity].
  apply (handle_unregistered_handler Sample.registry noOptions (alone 15)
           [Sample.taskC] Sample.taskC); [reflexivity| |reflexivity].
  vm_compute. discriminate.
Defined.

(** * QueueService.resetAndRestart *)

(** C4.  [resetAndRestart] returns the task with [status = Pending], [startAt]
    the clock, [error] empty and [updatedAt] the clock read after it, and with
    [id], [handler], [params], [timeout], [info], [retries] and [createdAt] as
    they were; it writes that record under the id of the task: every row that
    has the id then holds it, every other row is as it was. *)
Theorem resetAndRestart_frame (startNow updateNow : Date) (task : Task.t)
  (rows : Table) :
  exists updated,
    resetAndRestart startNow updateNow task rows
    = (updated, updateById (Task.id task) updated rows)
    /\ Task.status updated = TaskStatus.Pending
    /\ Task.startAt updated = startNow
    /\ Task.error updated = ""
    /\ Task.updatedAt updated = updateNow
    /\ Task.id updated = Task.id task
    /\ Task.handler updated = Task.handler task
    /\ Task.params updated = Task.params task
    /\ Task.timeout updated = Task.timeout task
    /\ Task.info updated = Task.info task
    /\ Task.retries updated = Task.retries task
    /\ Task.createdAt updated = Task.createdAt task
    /\ (forall row, In row rows ->
          (Task.id row = Task.id task ->
             In updated (snd (resetAndRestart startNow updateNow task rows)))
          /\ (Task.id row <> Task.id task ->
                In row (snd (resetAndRestart startNow updateNow task rows)))).
Proof.
  eexists. split; [reflexivity|]. repeat (split; [reflexivity|]).
  intros row Hin. apply (updateById_In _ _ _ row Hin).
Qed.

(** The revision of Service.ts resets less: [error] and [updatedAt] stay. *)
Lemma ServiceTs_resetAndRestart_keeps (startNow : Date) (task : Task.t)
  (rows : Table) :
  let updated := fst (ServiceTs.resetAndRestart startNow task rows) in
  Task.status updated = TaskStatus.Pending
  /\ Task.startAt updated = startNow
  /\ Task.error updated = Task.error task
  /\ Task.updatedAt updated = Task.updatedAt task
  /\ Task.retries updated = Task.retries task.
Proof. repeat split. Qed.

Example resetAndRestart_failed :
  resetAndRestart 40 41 Sample.failed [Sample.taskA; Sample.failed]
  = ({| Task.id := "f"; Task.handler := "callCallBack"; Task.params := "{}";
        Task.startAt := 40; Task.timeout := Some 500;
        Task.status := TaskStatus.Pending; Task.info := "half done";
        Task.error := ""; Task.retries := 2; Task.createdAt := 1;
        Task.updatedAt := 41 |},
     [Sample.taskA;
      {| Task.id := "f"; Task.handler := "callCallBack"; Task.params := "{}";
         Task.startAt := 40; Task.timeout := Some 500;
         Task.status := TaskStatus.Pending; Task.info := "half done";
         Task.error := ""; Task.retries := 2; Task.createdAt := 1;
         Task.updatedAt := 41 |}]).
Proof. reflexivity. Qed.

(** * QueueService.createBroker *)




(** * Broker: the poll loop *)

Lemma Broker_handle_inFlight (b : Broker.t) :
  Broker.oneAtATime false (map Broker.Out (snd (Broker.handle b)))
  = true
  /\ forall log,
       Broker.oneAtATime false (map Broker.Out (snd (Broker.handle b)) ++ log)
       = Broker.oneAtATime (Broker.inFlight (fst (Broker.handle b))) log.
Proof.
  unfold Broker.handle. destruct (Broker.isStarted b); simpl; auto.
Qed.

(** Every log of a loop keeps to one call at a time. *)
Lemma Broker_run_oneAtATime (inputs : list Broker.Input) :
  forall (b b' : Broker.t) (l l' : Broker.Loop) (log : list Broker.Item),
    Broker.run b l inputs = Some (b', l', log) ->
    Broker.oneAtATime (Broker.inFlight l) log = true.
Proof.
  induction inputs as [|i rest IH]; intros b b' l l' log H; simpl in H.
  - now injection H as <- <- <-.
  - destruct (Broker.step b l i) as [[[b1 l1] out]|] eqn:Hstep; [|discriminate].
    destruct (Broker.run b1 l1 rest) as [[[b2 l2] log2]|] eqn:Hrun; [|discriminate].
    injection H as <- <- <-. specialize (IH _ _ _ _ _ Hrun).
    destruct i as [| |res|]; destruct l; simpl in Hstep; try discriminate.
    1-6: injection Hstep as <- <- <-; exact IH.
    + unfold Broker.resumed in Hstep. destruct res; simpl in Hstep.
      * destruct (Broker.handle b) as [l0 out0] eqn:Hh.
        injection Hstep as <- <- <-. cbn [Broker.oneAtATime Broker.inFlight andb].
        pose proof (proj2 (Broker_handle_inFlight b) log2) as Hsame.
        rewrite Hh in Hsame. simpl in Hsame. now rewrite Hsame.
      * injection Hstep as <- <- <-. exact IH.
    + unfold Broker.woken in Hstep.
      destruct (Broker.handle b) as [l0 out0] eqn:Hh.
      injection Hstep as <- <- <-. cbn [Broker.oneAtATime Broker.inFlight negb andb].
      pose proof (proj2 (Broker_handle_inFlight b) log2) as Hsame.
      rewrite Hh in Hsame. simpl in Hsame. now rewrite Hsame.
Qed.

(** A stopped broker that nobody starts again never calls
    [QueueService.handle] again. *)
Lemma Broker_stopped_calls_nothing (inputs : list Broker.Input) :
  forall (b b' : Broker.t) (l l' : Broker.Loop) (log : list Broker.Item),
    Broker.isStarted b = false ->
    forallb (fun i => negb (Broker.isStart i)) inputs = true ->
    Broker.run b l inputs = Some (b', l', log) ->
    filter Broker.isCallHandle log = [] /\ Broker.isStarted b' = false.
Proof.
  induction inputs as [|i rest IH]; intros b b' l l' log Hoff Hno H; simpl in H.
  - injection H as <- <- <-. now split.
  - simpl in Hno. apply andb_true_iff in Hno as [Hi Hno].
    destruct (Broker.step b l i) as [[[b1 l1] out]|] eqn:Hstep; [|discriminate].
    destruct (Broker.run b1 l1 rest) as [[[b2 l2] log2]|] eqn:Hrun; [|discriminate].
    injection H as <- <- <-.
    assert (Broker.isStarted b1 = false
            /\ filter Broker.isCallHandle (map Broker.Out out) = []) as [Hoff1 Hout].
    { destruct i as [| |res|]; destruct l; simpl in Hstep, Hi; try discriminate;
        unfold Broker.resumed, Broker.woken, Broker.handle in Hstep;
        rewrite ?Hoff in Hstep; try destruct res; simpl in Hstep;
        injection Hstep as <- <- <-; auto. }
    destruct (IH _ _ _ _ _ Hoff1 Hno Hrun) as [Hlog Hb'].
    split; [|exact Hb'].
    simpl. rewrite filter_app, Hout, Hlog.
    now destruct i.
Qed.

(** C9.  Each iteration of the loop first reads [isStarted] and ends the loop
    when it is false.  When [QueueService.handle] returned [false] the loop
    sets the timer to [interval] and goes on only when it fires; when it
    returned [true] the loop runs its next iteration in the same step.
    [stop()] clears [isStarted], sends nothing and leaves a loop that awaits
    [QueueService.handle] awaiting it: the result is still taken, and a
    stopped broker calls [QueueService.handle] no more.  In every log of a
    loop, a call of [QueueService.handle] is sent only when none is awaited. *)
Theorem Broker_loop (b : Broker.t) :
  (Broker.isStarted b = false -> Broker.handle b = (Broker.Over, []))
  /\ (Broker.isStarted b = true ->
        Broker.handle b
        = (Broker.InHandle, [Broker.CallHandle (Broker.handleOptions b)]))
  /\ Broker.step b Broker.InHandle (Broker.HandleSettled false)
     = Some (b, Broker.Asleep, [Broker.SetTimeout (Broker.interval b)])
  /\ (forall i, i <> Broker.TimerFired -> Broker.isStart i = false ->
        i <> Broker.StopCalled -> Broker.step b Broker.Asleep i = None)
  /\ Broker.step b Broker.Asleep Broker.TimerFired
     = Some (b, fst (Broker.handle b), snd (Broker.handle b))
  /\ Broker.step b Broker.InHandle (Broker.HandleSettled true)
     = Some (b, fst (Broker.handle b), snd (Broker.handle b))
  /\ Broker.isStarted (Broker.stop b) = false
  /\ (forall l, Broker.step b l Broker.StopCalled = Some (Broker.stop b, l, []))
  /\ (forall res, Broker.step (Broker.stop b) Broker.InHandle (Broker.HandleSettled res)
        = Some (Broker.stop b,
                if res then Broker.Over else Broker.Asleep,
                if res then [] else [Broker.SetTimeout (Broker.interval b)]))
  /\ (forall inputs l b' l' log,
        forallb (fun i => negb (Broker.isStart i)) inputs = true ->
        Broker.run (Broker.stop b) l inputs = Some (b', l', log) ->
        filter Broker.isCallHandle log = [])
  /\ (forall inputs l b' l' log,
        Broker.run b l inputs = Some (b', l', log) ->
        Broker.oneAtATime (Broker.inFlight l) log = true).
Proof.
  split; [intro H; unfold Broker.handle; now rewrite H|].
  split; [intro H; unfold Broker.handle; now rewrite H|].
  split; [reflexivity|].
  split; [intros [| |res|] H1 H2 H3; simpl in *; congruence|].
  split; [simpl; unfold Broker.woken; now destruct (Broker.handle b)|].
  split; [simpl; unfold Broker.resumed; simpl; now destruct (Broker.handle b)|].
  split; [reflexivity|].
  split; [reflexivity|].
  split; [intros [|]; reflexivity|].
  split.
  - intros inputs l b' l' log Hno Hrun.
    now apply (Broker_stopped_calls_nothing inputs (Broker.stop b) b' l l' log).
  - intros inputs l b' l' log Hrun.
    now apply (Broker_run_oneAtATime inputs b b' l l' log).
Qed.

(** A broker is started, finds work, then none, is stopped while it sleeps,
    and ends when the timer fires. *)
Example Broker_run_sample :
  let (b, first) := Broker.start (Broker.new Sample.goodOptions) in
  fst first = Broker.InHandle
  /\ Broker.run b (fst first)
       [Broker.HandleSettled true; Broker.HandleSettled false;
        Broker.StopCalled; Broker.TimerFired]
     = Some (Broker.stop b, Broker.Over,
             [Broker.In (Broker.HandleSettled true);
              Broker.Out (Broker.CallHandle
                            {| include := Some ["callCallBack"]; exclude := None |});
              Broker.In (Broker.HandleSettled false);
              Broker.Out (Broker.SetTimeout (Some 250));
              Broker.In Broker.StopCalled;
              Broker.In Broker.TimerFired]).
Proof. split; reflexivity. Qed.

(** * Notes on the two revisions *)

(** The claim of Service.ts changes the status alone. *)
Remark ServiceTs_claimSet_retries (row : Task.t) :
  Task.retries (ServiceTs.claimSet row) = Task.retries row
  /\ Task.status (ServiceTs.claimSet row) = TaskStatus.Process.
Proof. split; reflexivity. Qed.

(** The values the failure path writes are built from the row as the select
    read it, before the claim: their [retries] is that row's. *)
Remark settle_failure_retries (Handlers : string -> option HandlerFn)
  (current : Task.t) (now : Date) (run : HandlerFn) (e : string) :
  Handlers (Task.handler current) = Some run ->
  run (Process.new current) = Rejected e ->
  Task.retries (fst (settle Handlers current now)) = Task.retries current.
Proof. intros Hrun He. unfold settle. now rewrite Hrun, He. Qed.

(** * QueueService: the claim as a lock *)

Lemma claimSet_unmatched (id : string) (row : Task.t) :
  claimWhere id (claimSet row) = false
  /\ claimWhere id (ServiceTs.claimSet row) = false.
Proof.
  unfold claimWhere. simpl. split; apply andb_false_r.
Qed.

Lemma claimed_rows_unmatched (id : string) (rows : Table) :
  (forall row, In row (fst (claim id rows)) -> claimWhere id row = false)
  /\ (forall row, In row (fst (ServiceTs.claim id rows)) ->
        claimWhere id row = false).
Proof.
  split; intros row Hin; simpl in Hin; apply in_map_iff in Hin as (r & <- & _);
    destruct (claimWhere id r) eqn:E; auto; apply claimSet_unmatched.
Qed.

Lemma updateWhere_nothing (cond : Task.t -> bool) (set : Task.t -> Task.t)
  (rows : Table) :
  (forall row, In row rows -> cond row = false) ->
  updateWhere cond set rows = (rows, 0).
Proof.
  intro H. rewrite (surjective_pairing (updateWhere cond set rows)).
  rewrite (updateWhere_unmatched cond set rows H).
  unfold updateWhere. cbn [snd]. apply filter_nil_iff in H. now rewrite H.
Qed.

Lemma claim_spent (id : string) (rows : Table) :
  claim id (fst (claim id rows)) = (fst (claim id rows), 0)
  /\ ServiceTs.claim id (fst (ServiceTs.claim id rows))
     = (fst (ServiceTs.claim id rows), 0).
Proof.
  destruct (claimed_rows_unmatched id rows) as [H H'].
  split; [unfold claim at 1 | unfold ServiceTs.claim at 1];
    now apply updateWhere_nothing.
Qed.

(** X1.  A claim is spent once: claiming the same id again, on the table the
    first claim left, reports no row and changes none, and no row of that
    table is both of that id and [Pending].  Both revisions. *)
Theorem claim_twice_reports_zero (id : string) (rows : Table) :
  claim id (fst (claim id rows)) = (fst (claim id rows), 0)
  /\ ServiceTs.claim id (fst (ServiceTs.claim id rows))
     = (fst (ServiceTs.claim id rows), 0)
  /\ (forall row, In row (fst (claim id rows)) -> Task.id row = id ->
        Task.status row <> TaskStatus.Pending).
Proof.
  destruct (claim_spent id rows) as [H H']. split; [exact H|]. split; [exact H'|].
  intros row Hin Hid Hst.
  pose proof (proj1 (claimed_rows_unmatched id rows) row Hin) as Hun.
  unfold claimWhere, whereId in Hun.
  apply String.eqb_eq in Hid. rewrite Hid, Hst in Hun. discriminate.
Qed.

Section Pollers.

Variable Handlers : string -> option HandlerFn.

(** X2.  Of two pollers that selected the same task, the one whose claim
    comes right after the other's returns [false]: it calls no handler,
    writes nothing, and leaves the table as the winner's claim left it. *)
Theorem handle_second_poller_loses (options : HandleOptions) (world : Schedule)
  (t0 : Table) (current : Task.t) :
  selectCurrent options (selectAt world) t0 = Some current ->
  (exists seen, raced world t0 = fst (claim (Task.id current) seen)) ->
  returned (handle Handlers options world t0) = false
  /\ table (handle Handlers options world t0) = raced world t0
  /\ filter isCall (effects (handle Handlers options world t0)) = []
  /\ filter isWrite (effects (handle Handlers options world t0)) = [].
Proof.
  intros Hsel [seen Hraced].
  rewrite (handle_selected _ _ _ _ _ Hsel), Hraced.
  destruct (claim_spent (Task.id current) seen) as [-> _].
  simpl. repeat split.
Qed.

(** X5.  A poller that nobody races sees its claim succeed: [handle] returns
    [true] exactly when some row of the table passes the select.  Both
    revisions. *)
Theorem handle_alone_returns_true_iff (options : HandleOptions)
  (world : Schedule) (t0 : Table) :
  raced world t0 = t0 ->
  (returned (handle Handlers options world t0) = true
   <-> exists row, In row t0 /\ selectWhere options (selectAt world) row = true)
  /\ returned (ServiceTs.handle Handlers options world t0)
     = returned (handle Handlers options world t0).
Proof.
  intro Halone.
  destruct (selectCurrent options (selectAt world) t0) as [current|] eqn:Hsel.
  - assert (In current t0 /\ selectWhere options (selectAt world) current = true)
      as [Hin Hok].
    { apply first_orderByAsc in Hsel as [Hf _]. now apply filter_In in Hf. }
    assert (snd (claim (Task.id current) (raced world t0)) <> 0) as Hlock.
    { rewrite Halone. simpl.
      assert (In current (filter (claimWhere (Task.id current)) t0)) as Hf.
      { apply filter_In. split; [exact Hin|].
        apply selectWhere_true in Hok as (Hst & _).
        unfold claimWhere, whereId. rewrite String.eqb_refl, Hst. reflexivity. }
      destruct (filter (claimWhere (Task.id current)) t0); [destruct Hf|].
      simpl. lia. }
    destruct (handle_claimed Handlers options world t0 current Hsel Hlock)
      as [-> ->].
    simpl. split; [|reflexivity]. split; [|reflexivity].
    intros _. now exists current.
  - unfold handle, ServiceTs.handle. rewrite Hsel. simpl.
    split; [|reflexivity]. split; [discriminate|].
    intros (row & Hin & Hok). rewrite selectCurrent_None in Hsel.
    rewrite (Hsel row Hin) in Hok. discriminate.
Qed.

End Pollers.

Lemma handle_second_poller_loses_witness :
  returned (handle Sample.registry noOptions (Sample.lostRace "a" 15)
              [Sample.taskB; Sample.taskA]) = false
  /\ table (handle Sample.registry noOptions (Sample.lostRace "a" 15)
              [Sample.taskB; Sample.taskA])
     = [Sample.taskB; claimSet Sample.taskA].
Proof.
  destruct (handle_second_poller_loses Sample.registry noOptions
              (Sample.lostRace "a" 15) [Sample.taskB; Sample.taskA] Sample.taskA
              eq_refl) as (Hret & Htab & _).
  { exists [Sample.taskB; Sample.taskA]. reflexivity. }
  split; [exact Hret | exact Htab].
Defined.

Lemma handle_alone_returns_true_iff_witness :
  returned (handle Sample.registry noOptions (alone 15)
              [Sample.taskB; Sample.taskA]) = true.
Proof.
  apply (proj1 (handle_alone_returns_true_iff Sample.registry noOptions (alone 15)
                  [Sample.taskB; Sample.taskA] eq_refl)).
  exists Sample.taskA. split; [simpl; auto | reflexivity].
Defined.

(** * QueueService: the id column *)

Lemma whereId_at_most_one (id : string) (rows : Table) :
  NoDup (map Task.id rows) ->
  (List.length (filter (whereId id) rows) <= 1)%nat.
Proof.
  induction rows as [|r rest IH]; simpl; [lia|].
  intro Hnd. apply NoDup_cons_iff in Hnd as [Hnotin Hnd].
  unfold whereId at 1. destruct (String.eqb (Task.id r) id) eqn:E.
  - apply String.eqb_eq in E. subst id.
    assert (filter (whereId (Task.id r)) rest = []) as ->; [|simpl; lia].
    apply filter_nil_iff. intros row Hin. unfold whereId.
    apply String.eqb_neq. intros Heq. apply Hnotin. rewrite <- Heq.
    now apply in_map.
  - now apply IH.
Qed.

Lemma filter_claimWhere_le (id : string) (rows : Table) :
  (List.length (filter (claimWhere id) rows)
   <= List.length (filter (whereId id) rows))%nat.
Proof.
  induction rows as [|r rest IH]; simpl; [lia|].
  unfold claimWhere at 1. destruct (whereId id r); simpl;
    [destruct (TaskStatus.eqb _ _); simpl; lia | exact IH].
Qed.

(** X3.  On a table whose ids are distinct, a claim reports 0 or 1: the lock
    [handle] tests is never more than one row.  Both revisions. *)
Theorem claim_reports_zero_or_one (id : string) (rows : Table) :
  NoDup (map Task.id rows) ->
  (snd (claim id rows) = 0 \/ snd (claim id rows) = 1)
  /\ snd (ServiceTs.claim id rows) = snd (claim id rows).
Proof.
  intro Hnd. split; [|reflexivity]. simpl.
  pose proof (whereId_at_most_one id rows Hnd).
  pose proof (filter_claimWhere_le id rows). lia.
Qed.

Lemma claim_reports_zero_or_one_witness :
  snd (claim "a" [Sample.taskB; Sample.taskA]) = 0
  \/ snd (claim "a" [Sample.taskB; Sample.taskA]) = 1.
Proof.
  apply (claim_reports_zero_or_one "a" [Sample.taskB; Sample.taskA]).
  repeat constructor; simpl; intuition discriminate.
Defined.

Lemma updateWhere_keeps_ids (cond : Task.t -> bool) (set : Task.t -> Task.t)
  (rows : Table) :
  (forall row, cond row = true -> Task.id (set row) = Task.id row) ->
  map Task.id (fst (updateWhere cond set rows)) = map Task.id rows.
Proof.
  intro Hset. simpl. induction rows as [|r rest IH]; simpl; [reflexivity|].
  rewrite IH. destruct (cond r) eqn:E; [now rewrite (Hset r E) | reflexivity].
Qed.

(** X4.  The writers keep the id column: a claim and [resetAndRestart] leave
    the ids of the table as they are, row for row, and [push] adds the new id
    at the end; so ids that are distinct stay distinct as long as [uuid()]
    draws a fresh one. *)
Theorem writers_keep_ids_distinct (rows : Table) :
  (forall id,
     map Task.id (fst (claim id rows)) = map Task.id rows
     /\ map Task.id (fst (ServiceTs.claim id rows)) = map Task.id rows)
  /\ (forall startNow updateNow task,
        map Task.id (snd (resetAndRestart startNow updateNow task rows))
        = map Task.id rows
        /\ map Task.id (snd (ServiceTs.resetAndRestart startNow task rows))
           = map Task.id rows)
  /\ (forall uuid createdNow updatedNow handler params timeout startAt,
        map Task.id
          (snd (push uuid createdNow updatedNow handler params timeout startAt rows))
        = (map Task.id rows ++ [uuid])%list
        /\ (NoDup (map Task.id rows) -> ~ In uuid (map Task.id rows) ->
            NoDup (map Task.id
                     (snd (push uuid createdNow updatedNow handler params timeout
                             startAt rows))))).
Proof.
  split; [|split].
  - intro id. split; apply updateWhere_keeps_ids; reflexivity.
  - intros startNow updateNow task. split; apply updateWhere_keeps_ids;
      intros row H; apply String.eqb_eq in H; now rewrite H.
  - intros uuid createdNow updatedNow handler params timeout startAt.
    assert (map Task.id
              (snd (push uuid createdNow updatedNow handler params timeout startAt rows))
            = (map Task.id rows ++ [uuid])%list) as Hids
      by (simpl; now rewrite map_app).
    split; [exact Hids|]. intros Hnd Hfresh. rewrite Hids.
    apply NoDup_rev in Hnd. apply (NoDup_cons uuid) in Hnd.
    + apply NoDup_rev in Hnd. simpl in Hnd. now rewrite rev_involutive in Hnd.
    + now rewrite <- in_rev.
Qed.

(** * QueueService: a task from push to reset *)

Lemma updateById_holds (id : string) (values : Task.t) (rows : Table)
  (row : Task.t) :
  Task.id values = id ->
  In row (updateById id values rows) -> Task.id row = id -> row = values.
Proof.
  intros Hv Hin Hid. rewrite updateById_map in Hin.
  apply in_map_iff in Hin as (r & Hr & _).
  destruct (String.eqb (Task.id r) id) eqn:E; [now subst|].
  apply String.eqb_neq in E. subst r. contradiction.
Qed.

Lemma selectCurrent_In (options : HandleOptions) (now : Date) (rows : Table)
  (current : Task.t) :
  selectCurrent options now rows = Some current ->
  In current rows /\ selectWhere options now current = true.
Proof.
  intro H. apply first_orderByAsc in H as [Hf _]. now apply filter_In in Hf.
Qed.

Lemma selectCurrent_Some (options : HandleOptions) (now : Date) (rows : Table)
  (row : Task.t) :
  In row rows -> selectWhere options now row = true ->
  exists current, selectCurrent options now rows = Some current
    /\ Task.startAt current <= Task.startAt row.
Proof.
  intros Hin Hok.
  destruct (selectCurrent options now rows) as [current|] eqn:E.
  - exists current. split; [reflexivity|].
    apply first_orderByAsc in E as [_ Hleast]. apply Hleast, filter_In. now split.
  - rewrite selectCurrent_None in E. rewrite (E row Hin) in Hok. discriminate.
Qed.

Section Lifecycle.

Variable Handlers : string -> option HandlerFn.

(** X6.  When the claim of [current] changed a row and the registered handler
    resolves, [handle] writes the task of the context the handler handed
    back, as it is, under the id of [current], and returns [true]: every row
    that has that id when the handler is done is replaced by that task, and
    every other row is left alone.  Both revisions. *)
Theorem handle_success_persisted (options : HandleOptions) (world : Schedule)
  (t0 : Table) (current : Task.t) (run : HandlerFn) (result : Process.t) :
  selectCurrent options (selectAt world) t0 = Some current ->
  snd (claim (Task.id current) (raced world t0)) <> 0 ->
  Handlers (Task.handler current) = Some run ->
  run (Process.new current) = Resolved result ->
  let h := handle Handlers options world t0 in
  let h' := ServiceTs.handle Handlers options world t0 in
  let before := meanwhile world (fst (claim (Task.id current) (raced world t0))) in
  returned h = true /\ returned h' = true
  /\ table h = updateById (Task.id current) (Process.task result) before
  /\ table h'
     = updateById (Task.id current) (Process.task result)
         (meanwhile world (fst (ServiceTs.claim (Task.id current) (raced world t0))))
  /\ filter isCall (effects h) = [Call (Task.handler current) (Process.new current)]
  /\ last (effects h) (LogInfo "") = Update (Task.id current) (Process.task result)
  /\ last (effects h') (LogInfo "") = Update (Task.id current) (Process.task result)
  /\ (forall row, In row before ->
        (Task.id row = Task.id current -> In (Process.task result) (table h))
        /\ (Task.id row <> Task.id current -> In row (table h))).
Proof.
  intros Hsel Hlock Hrun Hres h h' before.
  destruct (handle_claimed Handlers options world t0 current Hsel Hlock) as [Hh Hh'].
  subst h h' before. rewrite Hh, Hh'. unfold settle. rewrite Hrun, Hres.
  cbn [returned table effects fst snd]. repeat (split; [reflexivity|]).
  intros row Hin. apply (updateById_In _ _ _ row Hin).
Qed.

(** X7.  A task whose handler threw, or has no registered handler, is not
    selected again as [handle] left it: in the table after that call, every
    row with the id of [current] is in [Error], and no select, whatever its
    filter and clock, returns a row with that id. *)
Theorem handle_failed_task_leaves_circulation (options : HandleOptions)
  (world : Schedule) (t0 : Table) (current : Task.t) :
  selectCurrent options (selectAt world) t0 = Some current ->
  snd (claim (Task.id current) (raced world t0)) <> 0 ->
  (Handlers (Task.handler current) = None
   \/ exists run e, Handlers (Task.handler current) = Some run
                    /\ run (Process.new current) = Rejected e) ->
  let after := table (handle Handlers options world t0) in
  (forall row, In row after -> Task.id row = Task.id current ->
     Task.status row = TaskStatus.Error)
  /\ (forall options' now' row, selectCurrent options' now' after = Some row ->
        Task.id row <> Task.id current).
Proof.
  intros Hsel Hlock Hfail after.
  assert (forall row, In row after -> Task.id row = Task.id current ->
            Task.status row = TaskStatus.Error) as Herr.
  { subst after.
    destruct (handle_claimed Handlers options world t0 current Hsel Hlock) as [-> _].
    cbn [table]. intros row Hin Hid.
    destruct Hfail as [Hnone|(run & e & Hrun & He)]; unfold settle in Hin;
      [rewrite Hnone in Hin | rewrite Hrun, He in Hin]; cbn [fst] in Hin;
      apply updateById_holds in Hin; auto; now subst row. }
  split; [exact Herr|].
  intros options' now' row Hrow Hid.
  apply selectCurrent_In in Hrow as [Hin Hok].
  apply selectWhere_true in Hok as (Hst & _).
  rewrite (Herr row Hin Hid) in Hst. discriminate.
Qed.

End Lifecycle.

Lemma handle_success_persisted_witness :
  table (handle Sample.finishing noOptions (alone 15) [Sample.taskB; Sample.taskA])
  = [Sample.taskB; Sample.doneOf Sample.taskA].
Proof.
  assert (snd (claim (Task.id Sample.taskA)
                 (raced (alone 15) [Sample.taskB; Sample.taskA])) <> 0) as Hlock
    by (vm_compute; discriminate).
  pose proof (handle_success_persisted Sample.finishing noOptions (alone 15)
                [Sample.taskB; Sample.taskA] Sample.taskA Sample.finish
                (Process.new (Sample.doneOf Sample.taskA))
                eq_refl Hlock eq_refl eq_refl) as (_ & _ & Htab & _).
  rewrite Htab. reflexivity.
Defined.

Lemma handle_failed_task_leaves_circulation_witness :
  selectCurrent noOptions 99
    (table (handle Sample.registry noOptions (alone 15) [Sample.taskA]))
  = None.
Proof.
  destruct (handle_failed_task_leaves_circulation Sample.registry noOptions
              (alone 15) [Sample.taskA] Sample.taskA eq_refl) as [_ Hnever].
  { vm_compute. discriminate. }
  { right. exists (fun _ => Rejected Sample.notFound), Sample.notFound.
    split; reflexivity. }
  destruct (selectCurrent noOptions 99
              (table (handle Sample.registry noOptions (alone 15) [Sample.taskA])))
    as [row|] eqn:E; [|reflexivity].
  exfalso. apply (Hnever noOptions 99 row E).
  apply selectCurrent_In in E as [[<-|[]] _]. reflexivity.
Defined.

(** X8.  [resetAndRestart] puts a stored task back in line: once it is
    written, a select with no handler filter whose clock is not before the
    reset finds a row, and one that starts no later than the reset. *)
Theorem resetAndRestart_then_select (startNow updateNow now : Date)
  (task row : Task.t) (rows : Table) :
  In row rows -> Task.id row = Task.id task -> startNow <= now ->
  exists current,
    selectCurrent noOptions now (snd (resetAndRestart startNow updateNow task rows))
    = Some current
    /\ Task.startAt current <= startNow
    /\ Task.status current = TaskStatus.Pending.
Proof.
  intros Hin Hid Hnow.
  destruct (updateById_In (Task.id task)
              (fst (resetAndRestart startNow updateNow task rows)) rows row Hin)
    as [Hthere _].
  specialize (Hthere Hid).
  destruct (selectCurrent_Some noOptions now _ _ Hthere) as (current & Hsel & Hle).
  { unfold selectWhere. simpl. rewrite andb_true_r, andb_true_r.
    now apply Z.leb_le. }
  exists current. split; [exact Hsel|]. split; [exact Hle|].
  apply selectCurrent_In in Hsel as [_ Hok].
  now apply selectWhere_true in Hok as (Hst & _).
Qed.

Lemma resetAndRestart_then_select_witness :
  exists current,
    selectCurrent noOptions 40 (snd (resetAndRestart 40 41 Sample.failed [Sample.failed]))
    = Some current
    /\ Task.startAt current <= 40
    /\ Task.status current = TaskStatus.Pending.
Proof.
  apply (resetAndRestart_then_select 40 41 40 Sample.failed Sample.failed
           [Sample.failed]); [now left | reflexivity | lia].
Defined.

Lemma filter_snoc (cond : Task.t -> bool) (rows : Table) (row : Task.t) :
  filter cond (rows ++ [row])
  = (filter cond rows ++ if cond row then [row] else [])%list.
Proof. now rewrite filter_app. Qed.

(** X9.  A task pushed for a later time changes nothing about what is
    selected now; a task pushed for a time that has come, onto a table in
    which no row passes the select, is the row the next select without
    handler filter returns. *)
Theorem push_then_select (uuid handler params : string)
  (createdNow updatedNow startAt now : Date) (timeout : option Z)
  (rows : Table) :
  let pushed :=
    push uuid createdNow updatedNow handler params timeout startAt rows in
  (now < startAt ->
   forall options,
     selectCurrent options now (snd pushed) = selectCurrent options now rows)
  /\ (startAt <= now ->
      (forall row, In row rows -> selectWhere noOptions now row = false) ->
      selectCurrent noOptions now (snd pushed) = Some (fst pushed)).
Proof.
  intro pushed. subst pushed. cbn [push fst snd]. split.
  - intros Hlater options. unfold selectCurrent. rewrite filter_snoc.
    assert (selectWhere options now
              {| Task.id := uuid; Task.handler := handler; Task.params := params;
                 Task.startAt := startAt; Task.timeout := timeout;
                 Task.status := TaskStatus.Pending; Task.info := "";
                 Task.error := ""; Task.retries := 0;
                 Task.createdAt := createdNow; Task.updatedAt := updatedNow |}
            = false) as ->.
    { unfold selectWhere. cbn [Task.status Task.startAt].
      apply Z.leb_gt in Hlater. rewrite Hlater. reflexivity. }
    now rewrite app_nil_r.
  - intros Hdue Hnone. unfold selectCurrent. rewrite filter_snoc.
    apply filter_nil_iff in Hnone. rewrite Hnone.
    unfold selectWhere. cbn [Task.status Task.startAt given include exclude noOptions].
    apply Z.leb_le in Hdue. rewrite Hdue. reflexivity.
Qed.

Lemma push_then_select_witness :
  selectCurrent noOptions 15
    (snd (push "n" 12 12 "callCallBack" "{}" None 14 [Sample.taskB]))
  = Some (fst (push "n" 12 12 "callCallBack" "{}" None 14 [Sample.taskB])).
Proof.
  apply (proj2 (push_then_select "n" "callCallBack" "{}" 12 12 14 15 None
                  [Sample.taskB])); [lia|].
  intros row [<-|[]]. reflexivity.
Defined.

(** * Broker: start, stop and the timer *)

(** X10.  Once [isStarted] is false and nobody calls [start()], a loop is
    resumed at most twice more (an awaited call that found nothing, then the
    timer) and a loop that is over is resumed no more. *)
Theorem Broker_stop_ends_loop (inputs : list Broker.Input) :
  forall (b b' : Broker.t) (l l' : Broker.Loop) (log : list Broker.Item),
    Broker.isStarted b = false ->
    forallb (fun i => negb (Broker.isStart i)) inputs = true ->
    Broker.run b l inputs = Some (b', l', log) ->
    (List.length (filter Broker.isResumption inputs) + Broker.resumptionsLeft l'
     <= Broker.resumptionsLeft l)%nat.
Proof.
  induction inputs as [|i rest IH]; intros b b' l l' log Hoff Hno H; simpl in H.
  - injection H as <- <- <-. simpl. lia.
  - simpl in Hno. apply andb_true_iff in Hno as [Hi Hno].
    destruct (Broker.step b l i) as [[[b1 l1] out]|] eqn:Hstep; [|discriminate].
    destruct (Broker.run b1 l1 rest) as [[[b2 l2] log2]|] eqn:Hrun; [|discriminate].
    injection H as <- <- <-.
    assert (Broker.isStarted b1 = false
            /\ ((if Broker.isResumption i then 1 else 0)
                + Broker.resumptionsLeft l1 <= Broker.resumptionsLeft l)%nat)
      as [Hoff1 Hless].
    { destruct i as [| |res|]; destruct l; simpl in Hstep, Hi; try discriminate;
        unfold Broker.resumed, Broker.woken, Broker.handle in Hstep;
        rewrite ?Hoff in Hstep; try destruct res; simpl in Hstep;
        injection Hstep as <- <- <-; simpl; auto. }
    specialize (IH _ _ _ _ _ Hoff1 Hno Hrun).
    simpl. destruct (Broker.isResumption i); simpl; lia.
Qed.

Lemma Broker_stop_ends_loop_witness :
  (List.length (filter Broker.isResumption
                  [Broker.HandleSettled false; Broker.TimerFired])
   + Broker.resumptionsLeft Broker.Over
   <= Broker.resumptionsLeft Broker.InHandle)%nat.
Proof.
  apply (Broker_stop_ends_loop [Broker.HandleSettled false; Broker.TimerFired]
           (Broker.stop (Broker.new Sample.goodOptions))
           (Broker.stop (Broker.new Sample.goodOptions))
           Broker.InHandle Broker.Over
           [Broker.In (Broker.HandleSettled false);
            Broker.Out (Broker.SetTimeout (Some 250));
            Broker.In Broker.TimerFired]); reflexivity.
Defined.

(** X11.  A broker that [createBroker] returns is not started.  Once started
    it calls [QueueService.handle] with the lists of its options (with no
    lists when [handler] is absent), and after a call that found nothing it
    hands [setTimeout] the interval of its options: 1000 when the options have
    no [interval] key, the number when the key holds one, and [undefined] when
    the key is there with the value [undefined]. *)
Theorem createBroker_filter_and_backoff (Handlers : string -> option HandlerFn)
  (options : BrokerOptions.t) (b : Broker.t) :
  createBroker Handlers options = Normal b ->
  Broker.isStarted b = false
  /\ Broker.handle b = (Broker.Over, [])
  /\ snd (Broker.start b)
     = (Broker.InHandle,
        [Broker.CallHandle
           match BrokerOptions.handler options with
           | Lists lists => lists
           | Absent | Name _ => noOptions
           end])
  /\ Broker.step (fst (Broker.start b)) Broker.InHandle (Broker.HandleSettled false)
     = Some (fst (Broker.start b), Broker.Asleep,
             [Broker.SetTimeout
                match BrokerOptions.interval options with
                | Missing => Some 1000
                | Undefined => None
                | Value ms => Some ms
                end]).
Proof.
  intro H.
  assert (b = Broker.new options) as ->.
  { unfold createBroker in H.
    destruct (BrokerOptions.handler options);
      [|destruct (negb (hasHandler Handlers name))|]; congruence. }
  repeat split; simpl; unfold Broker.interval; simpl;
    now destruct (BrokerOptions.interval options).
Qed.

Lemma createBroker_filter_and_backoff_witness :
  Broker.step (fst (Broker.start (Broker.new Sample.typoOptions))) Broker.InHandle
    (Broker.HandleSettled false)
  = Some (fst (Broker.start (Broker.new Sample.typoOptions)), Broker.Asleep,
          [Broker.SetTimeout (Some 1000)]).
Proof.
  apply (createBroker_filter_and_backoff Sample.registry Sample.typoOptions
           (Broker.new Sample.typoOptions)).
  reflexivity.
Defined.

(** [createBroker({ interval: undefined })]: the default is overridden. *)
Example createBroker_interval_undefined :
  createBroker Sample.registry
    {| BrokerOptions.interval := Undefined; BrokerOptions.handler := Absent |}
  = Normal
      {| Broker.isStarted := false;
         Broker.options :=
           {| BrokerOptions.interval := Undefined;
              BrokerOptions.handler := Absent |} |}
  /\ Broker.interval
       (Broker.new
          {| BrokerOptions.interval := Undefined; BrokerOptions.handler := Absent |})
     = None.
Proof. split; reflexivity. Qed.

(** X12.  [start()] does not ask whether a loop is running.  A loop that is
    suspended when [stop()] and then [start()] are called goes on at its next
    check as if never stopped, and the [start()] has begun a second loop: the
    broker then has two calls of [QueueService.handle] in flight. *)
Theorem Broker_restart_runs_two_loops (b : Broker.t) (l : Broker.Loop)
  (resume : Broker.Input) :
  (l = Broker.Asleep /\ resume = Broker.TimerFired
   \/ l = Broker.InHandle /\ resume = Broker.HandleSettled true) ->
  let restarted := fst (Broker.start (Broker.stop b)) in
  Broker.run b l [Broker.StopCalled; Broker.StartCalled; resume]
  = Some (restarted, Broker.InHandle,
          [Broker.In Broker.StopCalled; Broker.In Broker.StartCalled;
           Broker.In resume;
           Broker.Out (Broker.CallHandle (Broker.handleOptions b))])
  /\ snd (Broker.start (Broker.stop b))
     = (Broker.InHandle, [Broker.CallHandle (Broker.handleOptions b)])
  /\ Broker.isStarted restarted = true.
Proof.
  intros [[-> ->]|[-> ->]] restarted; repeat split.
Qed.

Lemma Broker_restart_runs_two_loops_witness :
  Broker.run (Broker.new Sample.goodOptions) Broker.Asleep
    [Broker.StopCalled; Broker.StartCalled; Broker.TimerFired]
  = Some (fst (Broker.start (Broker.stop (Broker.new Sample.goodOptions))),
          Broker.InHandle,
          [Broker.In Broker.StopCalled; Broker.In Broker.StartCalled;
           Broker.In Broker.TimerFired;
           Broker.Out (Broker.CallHandle
                         (Broker.handleOptions (Broker.new Sample.goodOptions)))]).
Proof.
  apply (Broker_restart_runs_two_loops (Broker.new Sample.goodOptions)
           Broker.Asleep Broker.TimerFired).
  left. split; reflexivity.
Defined.

(** * callCallBack: chunk *)

Section Chunk.

Local Open Scope nat_scope.

Context {A : Type}.

Lemma slice_of_chunk (arr : list A) (i size : nat) :
  CallCallBack.slice arr (i * size) (i * size + size)
  = firstn size (skipn (i * size) arr).
Proof.
  unfold CallCallBack.slice. f_equal. lia.
Qed.

Lemma ceilDiv_covers (n size : nat) :
  0 < size -> n <= CallCallBack.ceilDiv n size * size.
Proof.
  intro Hs. unfold CallCallBack.ceilDiv.
  pose proof (Nat.div_mod_eq (n + size - 1) size) as Hdiv.
  pose proof (Nat.mod_upper_bound (n + size - 1) size ltac:(lia)) as Hmod.
  nia.
Qed.

Lemma ceilDiv_tight (n size : nat) :
  0 < size -> CallCallBack.ceilDiv n size * size < n + size.
Proof.
  intro Hs. unfold CallCallBack.ceilDiv.
  pose proof (Nat.div_mod_eq (n + size - 1) size) as Hdiv.
  nia.
Qed.

Lemma slices_concat (size k : nat) :
  forall arr : list A,
    List.length arr <= k * size ->
    List.concat (map (fun i => firstn size (skipn (i * size) arr)) (seq 0 k)) = arr.
Proof.
  induction k as [|k IH]; intros arr Hlen.
  - destruct arr; [reflexivity | simpl in Hlen; lia].
  - cbn [seq map List.concat]. rewrite <- seq_shift, map_map.
    replace (firstn size (skipn (0 * size) arr)) with (firstn size arr)
      by reflexivity.
    rewrite (map_ext _ (fun i => firstn size (skipn (i * size) (skipn size arr)))).
    + rewrite IH; [apply firstn_skipn|]. rewrite length_skipn. lia.
    + intro i. rewrite skipn_skipn. do 2 f_equal. lia.
Qed.

Lemma chunk_Normal (arr : list A) (size : nat) (chunks : list (list A)) :
  CallCallBack.chunk arr size = Normal chunks ->
  chunks = map (fun i => firstn size (skipn (i * size) arr))
             (seq 0 (CallCallBack.ceilDiv (List.length arr) size))
  /\ (size = 0 -> arr = []).
Proof.
  unfold CallCallBack.chunk. destruct size as [|size'].
  - destruct arr; [|discriminate]. intros [= <-]. now split.
  - intros [= <-]. split; [|discriminate].
    apply map_ext. intro i. apply slice_of_chunk.
Qed.

Lemma chunks_join (arr : list A) (size : nat) (chunks : list (list A)) :
  CallCallBack.chunk arr size = Normal chunks -> List.concat chunks = arr.
Proof.
  intro H. apply chunk_Normal in H as [-> Hzero].
  destruct size as [|size'].
  - now rewrite (Hzero eq_refl).
  - apply slices_concat, ceilDiv_covers. lia.
Qed.

Lemma chunks_sized (arr : list A) (size : nat) (chunks : list (list A)) :
  0 < size ->
  CallCallBack.chunk arr size = Normal chunks ->
  Forall (fun c => 1 <= List.length c <= size) chunks
  /\ (forall i c, nth_error chunks i = Some c -> S i < List.length chunks ->
        List.length c = size)
  /\ List.length arr <= List.length chunks * size < List.length arr + size
  /\ (arr = [] -> chunks = []).
Proof.
  intros Hs H. apply chunk_Normal in H as [-> _].
  pose proof (ceilDiv_covers (List.length arr) size Hs) as Hcov.
  pose proof (ceilDiv_tight (List.length arr) size Hs) as Htight.
  set (k := CallCallBack.ceilDiv (List.length arr) size) in *.
  rewrite length_map, length_seq.
  split; [|split; [|split]].
  - apply Forall_map, Forall_forall. intros i Hi. apply in_seq in Hi.
    rewrite length_firstn, length_skipn. nia.
  - intros i c Hnth Hlast. rewrite nth_error_map, nth_error_seq in Hnth.
    destruct (i <? k) eqn:E; [|discriminate]. simpl in Hnth.
    injection Hnth as <-. rewrite length_firstn, length_skipn. nia.
  - lia.
  - intros ->. simpl in Htight. assert (k = 0) as -> by nia. reflexivity.
Qed.

(** X13.  The chunks of an array, put end to end, are the array: [chunk]
    loses no element, repeats none and keeps their order.  It throws only for
    size 0 on an array that is not empty. *)
Theorem chunk_concat (arr : list A) (size : nat) :
  (forall chunks, CallCallBack.chunk arr size = Normal chunks ->
     List.concat chunks = arr)
  /\ ((exists e, CallCallBack.chunk arr size = Throw e)
      <-> size = 0 /\ arr <> []).
Proof.
  split; [intros chunks; apply chunks_join|].
  unfold CallCallBack.chunk. destruct size as [|size']; [destruct arr|].
  - split; [intros [e H]; discriminate | intros [_ H]; congruence].
  - split; [intros _; split; congruence | intros _; eexists; reflexivity].
  - split; [intros [e H]; discriminate | intros [H _]; discriminate].
Qed.

(** X14.  No chunk is empty and none is longer than [size]; every chunk but
    the last has exactly [size] elements; and there are just enough chunks:
    [length arr <= chunks * size < length arr + size]. *)
Theorem chunk_sizes (arr : list A) (size : nat) (chunks : list (list A)) :
  0 < size ->
  CallCallBack.chunk arr size = Normal chunks ->
  Forall (fun c => 1 <= List.length c <= size) chunks
  /\ (forall i c, nth_error chunks i = Some c -> S i < List.length chunks ->
        List.length c = size)
  /\ List.length arr <= List.length chunks * size < List.length arr + size
  /\ (arr = [] -> chunks = []).
Proof. apply chunks_sized. Qed.

End Chunk.

Lemma chunk_sizes_witness :
  Forall (fun c => (1 <= List.length c <= 2)%nat) [[1; 2]; [3; 4]; [5]]
  /\ CallCallBack.chunk [1; 2; 3; 4; 5] 2 = Normal [[1; 2]; [3; 4]; [5]].
Proof.
  split; [|reflexivity].
  apply (chunk_sizes [1; 2; 3; 4; 5] 2 [[1; 2]; [3; 4]; [5]]); [lia | reflexivity].
Defined.

(** * callCallBack: the handler *)

Section CallCallBackFacts.

Variable s : CallCallBack.Services.

Lemma chunk_100 {A : Type} (arr : list A) :
  exists chunks, CallCallBack.chunk arr 100 = Normal chunks.
Proof. eexists. reflexivity. Qed.

(** The three ways the handler settles. *)
Lemma handler_settles (process : Process.t) :
  (CallCallBack.rowsFound s process = false
   /\ (exists e, fst (CallCallBack.handler s process) = Rejected e)
   /\ snd (CallCallBack.handler s process) = [])
  \/ (CallCallBack.rowsFound s process = true
      /\ fst (CallCallBack.handler s process)
         = Resolved (CallCallBack.done s process)
      /\ (snd (CallCallBack.handler s process) = []
          \/ CallCallBack.settled s (snd (CallCallBack.handler s process)) = None))
  \/ (CallCallBack.rowsFound s process = true
      /\ snd (CallCallBack.handler s process) <> []
      /\ exists e,
           CallCallBack.settled s (snd (CallCallBack.handler s process)) = Some e
           /\ fst (CallCallBack.handler s process)
              = Resolved (Process.error process e (CallCallBack.failedAt s))).
Proof.
  unfold CallCallBack.rowsFound, CallCallBack.handler.
  destruct (CallCallBack.callBackTable s _) as [callBack|];
    [|left; repeat split; eexists; reflexivity].
  destruct (CallCallBack.contractEventListenerTable s _) as [eventListener|];
    [|left; repeat split; eexists; reflexivity].
  destruct (CallCallBack.contractTable s _); cbn [negb];
    [|left; repeat split; eexists; reflexivity].
  destruct (chunk_100 (CallCallBack.selectEvents s
              (CallCallBack.Params.events
                 (CallCallBack.paramsOf s (Task.params (Process.task process))))))
    as [chunks ->].
  destruct chunks as [|c rest]; [right; left; repeat split; now left|].
  match goal with
  | |- context [CallCallBack.settled s ?posts] =>
      destruct (CallCallBack.settled s posts) as [e|] eqn:E
  end; cbn [fst snd].
  - right; right. repeat split; [discriminate|]. exists e. now split.
  - right; left. repeat split. now right.
Qed.

(** X15.  The handler rejects exactly when the callback row, its event
    listener row or that listener's contract row is missing, and then it has
    posted nothing.  With the three rows there it always resolves: a post that
    fails is handed back as the context's failure, not thrown. *)
Theorem callCallBack_rejects_iff_row_missing (process : Process.t) :
  ((exists e, CallCallBack.default s process = Rejected e)
   <-> CallCallBack.rowsFound s process = false)
  /\ (CallCallBack.rowsFound s process = false ->
      snd (CallCallBack.handler s process) = [])
  /\ (CallCallBack.rowsFound s process = true ->
      CallCallBack.default s process = Resolved (CallCallBack.done s process)
      \/ exists e,
           CallCallBack.settled s (snd (CallCallBack.handler s process)) = Some e
           /\ CallCallBack.default s process
              = Resolved (Process.error process e (CallCallBack.failedAt s))).
Proof.
  unfold CallCallBack.default.
  destruct (handler_settles process)
    as [(Hnot & [e He] & Hposts)|[(Hall & Hdone & _)|(Hall & _ & e & He & Herr)]].
  - split; [split; [auto | intros _; now exists e]|]. split; [auto|congruence].
  - rewrite Hdone. split; [split; [intros [e H]; discriminate | congruence]|].
    split; [congruence | now left].
  - rewrite Herr. split; [split; [intros [e' H]; discriminate | congruence]|].
    split; [congruence | intros _; right; now exists e].
Qed.

(** X16.  With the three rows there, the posts carry the selected events,
    each once and in the order of the select, in batches of 1 to 100; every
    post goes to the callback's url under the listener's name, every event
    posted has an id the task listed, and nothing is posted when no event of
    the table has a listed id. *)
Theorem callCallBack_posts_every_event_once (process : Process.t)
  (callBack : CallCallBack.CallBack.t)
  (eventListener : CallCallBack.EventListener.t) :
  let params := CallCallBack.paramsOf s (Task.params (Process.task process)) in
  let posts := snd (CallCallBack.handler s process) in
  CallCallBack.callBackTable s (CallCallBack.Params.id params) = Some callBack ->
  CallCallBack.contractEventListenerTable s
    (CallCallBack.CallBack.eventListener callBack) = Some eventListener ->
  CallCallBack.contractTable s
    (CallCallBack.EventListener.contract eventListener) = true ->
  List.concat (map CallCallBack.Post.events posts)
  = CallCallBack.selectEvents s (CallCallBack.Params.events params)
  /\ Forall (fun post =>
               (1 <= List.length (CallCallBack.Post.events post) <= 100)%nat
               /\ CallCallBack.Post.url post
                  = CallCallBack.CallBack.callbackUrl callBack
               /\ CallCallBack.Post.eventName post
                  = CallCallBack.EventListener.name eventListener) posts
  /\ Forall (fun event =>
               In (CallCallBack.Event.id event) (CallCallBack.Params.events params))
       (List.concat (map CallCallBack.Post.events posts))
  /\ (List.length (CallCallBack.selectEvents s (CallCallBack.Params.events params))
      <= List.length posts * 100
      < List.length (CallCallBack.selectEvents s (CallCallBack.Params.events params))
        + 100)%nat.
Proof.
  intros params posts Hcb Hel Hct.
  set (selected := CallCallBack.selectEvents s (CallCallBack.Params.events params)).
  destruct (chunk_100 selected) as [chunks Hchunks].
  destruct (chunks_sized selected 100 chunks ltac:(lia) Hchunks)
    as (Hsizes & _ & Hcount & Hempty).
  pose proof (chunks_join selected 100 chunks Hchunks) as Hconcat.
  assert (posts
          = map (fun eventList =>
                   {| CallCallBack.Post.url := CallCallBack.CallBack.callbackUrl callBack;
                      CallCallBack.Post.eventName :=
                        CallCallBack.EventListener.name eventListener;
                      CallCallBack.Post.events := eventList |}) chunks) as Hposts.
  { subst posts. unfold CallCallBack.handler. fold params.
    rewrite Hcb, Hel, Hct. cbn [negb]. fold selected. rewrite Hchunks.
    destruct chunks as [|c rest]; [reflexivity|].
    match goal with
    | |- context [CallCallBack.settled s ?sent] =>
        destruct (CallCallBack.settled s sent)
    end; reflexivity. }
  assert (map CallCallBack.Post.events posts = chunks) as Hevents.
  { rewrite Hposts, map_map. cbn [CallCallBack.Post.events]. apply map_id. }
  rewrite Hevents, Hconcat. split; [reflexivity|]. split; [|split].
  - rewrite Hposts. apply Forall_map.
    eapply Forall_impl; [|exact Hsizes]. intros c Hc.
    split; [exact Hc | split; reflexivity].
  - apply Forall_forall. intros event Hin. subst selected.
    unfold CallCallBack.selectEvents in Hin. apply filter_In in Hin as [_ Hin].
    apply existsb_exists in Hin as (id & Hid & E).
    apply String.eqb_eq in E. now rewrite E.
  - rewrite Hposts, length_map. exact Hcount.
Qed.

Variable Handlers : string -> option HandlerFn.

(** X17.  A callCallBack task that [handle] claimed is written back, under
    its id, as [process.done()] made it when the handler resolved with that;
    in every other case, row missing or post failed, it is written back in
    [Error] under the same id.  [handle] returns [true] either way. *)
Theorem handle_callCallBack_outcome (options : HandleOptions) (world : Schedule)
  (t0 : Table) (current : Task.t) :
  selectCurrent options (selectAt world) t0 = Some current ->
  snd (claim (Task.id current) (raced world t0)) <> 0 ->
  Handlers (Task.handler current) = Some (CallCallBack.default s) ->
  let h := handle Handlers options world t0 in
  let process := Process.new current in
  exists values,
    returned h = true
    /\ table h
       = updateById (Task.id current) values
           (meanwhile world (fst (claim (Task.id current) (raced world t0))))
    /\ last (effects h) (LogInfo "") = Update (Task.id current) values
    /\ (CallCallBack.default s process = Resolved (CallCallBack.done s process) ->
        values = Process.task (CallCallBack.done s process))
    /\ (CallCallBack.default s process <> Resolved (CallCallBack.done s process) ->
        Task.status values = TaskStatus.Error
        /\ Task.id values = Task.id current).
Proof.
  intros Hsel Hlock Hreg h process.
  destruct (handle_claimed Handlers options world t0 current Hsel Hlock) as [Hh _].
  subst h. rewrite Hh. exists (fst (settle Handlers current (failedAt world))).
  cbn [returned table effects].
  split; [reflexivity|]. split; [reflexivity|].
  split; [now rewrite app_assoc, last_last|].
  unfold settle. rewrite Hreg. fold process. unfold CallCallBack.default.
  destruct (handler_settles process)
    as [(_ & [e ->] & _)|[(_ & -> & _)|(_ & _ & e & _ & ->)]];
    cbn [fst Process.task].
  - split; [discriminate | intros _; split; reflexivity].
  - split; [reflexivity | congruence].
  - split; [intros [= ->]; reflexivity | intros _; split; reflexivity].
Qed.

End CallCallBackFacts.

Lemma callCallBack_posts_every_event_once_witness :
  List.concat
    (map CallCallBack.Post.events
       (snd (CallCallBack.handler (SampleCallBack.services None)
               (Process.new Sample.taskA))))
  = [SampleCallBack.event "e1"; SampleCallBack.event "e3"].
Proof.
  destruct (callCallBack_posts_every_event_once (SampleCallBack.services None)
              (Process.new Sample.taskA)
              {| CallCallBack.CallBack.eventListener := "l";
                 CallCallBack.CallBack.callbackUrl := "https://example.org/hook" |}
              {| CallCallBack.EventListener.contract := "c";
                 CallCallBack.EventListener.name := "Transfer" |}
              eq_refl eq_refl eq_refl) as [Hall _].
  rewrite Hall. reflexivity.
Defined.

Lemma handle_callCallBack_outcome_witness :
  exists values,
    table (handle (SampleCallBack.registry (Some "Error: timeout of 1000ms exceeded"))
             noOptions (alone 15) [Sample.taskA])
    = [values]
    /\ Task.status values = TaskStatus.Error.
Proof.
  assert (snd (claim (Task.id Sample.taskA) (raced (alone 15) [Sample.taskA])) <> 0)
    as Hlock by (vm_compute; discriminate).
  destruct (handle_callCallBack_outcome
              (SampleCallBack.services (Some "Error: timeout of 1000ms exceeded"))
              (SampleCallBack.registry (Some "Error: timeout of 1000ms exceeded"))
              noOptions (alone 15) [Sample.taskA] Sample.taskA
              eq_refl Hlock eq_refl)
    as (values & _ & Htab & _ & _ & Hfailed).
  exists values. split; [rewrite Htab; vm_compute; reflexivity|].
  apply Hfailed. vm_compute. discriminate.
Defined.

(** * QueueService.handle: what becomes of the retries *)


(** The same for every table and schedule: after a claim that changed a row
    and a handler that threw, each row with the id of [current] holds the
    [retries] the select read. *)
Remark handle_failure_stores_selected_retries
  (Handlers : string -> option HandlerFn) (options : HandleOptions)
  (world : Schedule) (t0 : Table) (current : Task.t) (run : HandlerFn)
  (e : string) :
  selectCurrent options (selectAt world) t0 = Some current ->
  snd (claim (Task.id current) (raced world t0)) <> 0 ->
  Handlers (Task.handler current) = Some run ->
  run (Process.new current) = Rejected e ->
  forall row, In row (table (handle Handlers options world t0)) ->
    Task.id row = Task.id current ->
    Task.retries row = Task.retries current.
Proof.
  intros Hsel Hlock Hrun He row Hin Hid.
  destruct (handle_claimed Handlers options world t0 current Hsel Hlock) as [Hh _].
  rewrite Hh in Hin. cbn [table] in Hin. unfold settle in Hin.
  rewrite Hrun, He in Hin. cbn [fst] in Hin.
  apply updateById_holds in Hin; auto. now subst row.
Qed.
